(** * The ABTasty (Flagship) OpenFeature provider: context reconciliation
      and flag resolution

    A shallow embedding of the class [ABTastyProvider] (the provider source
    file of the repository) and the proofs of its specified properties.

    Conventions of the embedding:
    - a TypeScript optional ([x?: T], [T | undefined]) is an [option T];
      [undefined] is [None], also for the result of an optional chain [a?.b];
    - a JavaScript object used as a dictionary is a [gmap string _];
    - the Flagship SDK is an external collaborator: it is an interface
      ([Sdk]) over an opaque world state, visitors are references into it;
    - an [async] method is a computation over the provider fields and the SDK
      world that settles ([Resolved] or [Rejected]) and records the SDK calls
      and the emitted events it performs, in program order. *)

From Stdlib Require Import Floats.SpecFloat DecimalString.
From stdpp Require Import base option list gmap strings fin_maps.

Set Default Proof Using "Type".
Set Warnings "-register-all".
Local Open Scope string_scope.
Local Open Scope list_scope.
Local Open Scope nat_scope.

(** ** JavaScript values *)

(** The values of [EvaluationContextValue] and [JsonValue] of the OpenFeature
    SDK: [null], booleans, strings, numbers, dates, arrays and structures;
    functions are added because [toPrimitiveRecord] guards against them.
    Numbers are IEEE 754 doubles, kept as their [spec_float] description. *)
Inductive JsValue : Type :=
  | JNull
  | JBool (b : bool)
  | JNumber (n : spec_float)
  | JString (s : string)
  | JDate (ms : Z)
  | JArray (items : list JsValue)
  | JObject (fields : list (string * JsValue))
  | JFunction (name : string).

(** The results of the [typeof] operator. *)
Inductive TypeofTag : Type :=
  | TUndefined | TObject | TBoolean | TNumber | TString | TFunction.

Global Instance TypeofTag_eq_dec : EqDecision TypeofTag :=
  ltac:(solve_decision).

Definition typeof (v : JsValue) : TypeofTag :=
  match v with
  | JNull => TObject
  | JBool _ => TBoolean
  | JNumber _ => TNumber
  | JString _ => TString
  | JDate _ => TObject
  | JArray _ => TObject
  | JObject _ => TObject
  | JFunction _ => TFunction
  end.

(** [typeof] of a possibly [undefined] value. *)
Definition typeof_opt (v : option JsValue) : TypeofTag :=
  match v with
  | None => TUndefined
  | Some v => typeof v
  end.

Definition is_null (v : JsValue) : bool :=
  match v with JNull => true | _ => false end.

(** The [primitive] type of the Flagship SDK: [string | number | boolean]. *)
Definition is_primitive (v : JsValue) : bool :=
  match v with
  | JBool _ | JNumber _ | JString _ => true
  | _ => false
  end.

(** ToBoolean of a number: [+0], [-0] and [NaN] are falsy. *)
Definition number_truthy (n : spec_float) : bool :=
  match n with
  | S754_zero _ => false
  | S754_nan => false
  | S754_infinity _ => true
  | S754_finite _ _ _ => true
  end.

Definition string_truthy (s : string) : bool :=
  match s with
  | EmptyString => false
  | String _ _ => true
  end.

(** ToBoolean. *)
Definition truthy (v : JsValue) : bool :=
  match v with
  | JNull => false
  | JBool b => b
  | JNumber n => number_truthy n
  | JString s => string_truthy s
  | JDate _ | JArray _ | JObject _ | JFunction _ => true
  end.

Definition truthy_opt (v : option JsValue) : bool :=
  match v with
  | None => false
  | Some v => truthy v
  end.

(** [a || b], for a possibly [undefined] left operand. *)
Definition js_or (a : option JsValue) (b : JsValue) : JsValue :=
  match a with
  | Some v => if truthy v then v else b
  | None => b
  end.

(** [a ?? b]: [b] when [a] is [null] or [undefined]. *)
Definition js_nullish (a : option JsValue) (b : JsValue) : JsValue :=
  match a with
  | Some JNull => b
  | Some v => v
  | None => b
  end.

(** [a != b] on [string | undefined] operands (no coercion applies). *)
Definition loose_neq (a b : option string) : bool :=
  bool_decide (a ≠ b).

(** [a !== b] of a boolean against [boolean | undefined]. *)
Definition strict_neq_bool (a : bool) (b : option bool) : bool :=
  bool_decide (Some a ≠ b).

(** ** Context translation *)

(** The body of the loop of [toPrimitiveRecord]: one entry of
    [Object.entries(input)] against the output built so far. *)
Definition toPrimitiveRecord_step
    (output : gmap string JsValue) (entry : string * JsValue)
    : gmap string JsValue :=
  let '(key, value) := entry in
  if negb (is_null value)
     && negb (bool_decide (typeof value = TObject))
     && negb (bool_decide (typeof value = TFunction))
  then <[key := value]> output
  else output.

Definition toPrimitiveRecord (input : gmap string JsValue)
    : gmap string JsValue :=
  fold_left toPrimitiveRecord_step (map_to_list input) ∅.

(** ** The boundary with the Flagship SDK and the OpenFeature SDK *)

Inductive FSSdkStatus : Type :=
  | SDK_NOT_INITIALIZED | SDK_INITIALIZING | SDK_PANIC | SDK_INITIALIZED.

Inductive FSFetchStatus : Type :=
  | FETCHED | FETCHING | FETCH_REQUIRED | PANIC.

Inductive ClientProviderStatus : Type :=
  | NOT_READY | READY | ERROR | STALE | RECONCILING.

Inductive ProviderEvents : Type :=
  | Ready | Error | ConfigurationChanged | ContextChanged | Reconciling
  | Stale.

Global Instance FSSdkStatus_eq_dec : EqDecision FSSdkStatus :=
  ltac:(solve_decision).
Global Instance FSFetchStatus_eq_dec : EqDecision FSFetchStatus :=
  ltac:(solve_decision).
Global Instance ProviderEvents_eq_dec : EqDecision ProviderEvents :=
  ltac:(solve_decision).

(** A visitor is a JavaScript object of the SDK: the provider holds a
    reference to it, and two references are the same object when equal. *)
Definition VisitorRef : Type := nat.

(** Modelled from the spec: the type [FlagshipContext] of [./types], which is
    not among the sources. An evaluation context has the two reserved fields
    [targetingKey] (optional string) and [fsVisitorInfo] (optional structure
    [{ hasConsented, isAuthenticated? }]); all other attributes form the user
    attribute bag, which is what the rest pattern [...userContext] binds.
    [hasConsented] is optional here because the provider itself stores
    [undefined] in it and tests it against [undefined]. *)
Record FsVisitorInfo : Type := {
  hasConsented : option bool;
  isAuthenticated : option bool
}.

Record FlagshipContext : Type := {
  fsVisitorInfo : option FsVisitorInfo;
  targetingKey : option string;
  userContext : gmap string JsValue
}.

(** The argument object of [Flagship.newVisitor]. *)
Record NewVisitorArgs : Type := {
  nv_hasConsented : option bool;
  nv_isAuthenticated : option bool;
  nv_visitorId : option string;
  nv_context : gmap string JsValue
}.

(** The flag object returned by [visitor.getFlag]: [getValue] may come back
    [undefined] (the provider casts its result), [metadata] is the object
    the SDK's flag type declares. *)
Record Flag : Type := {
  getValue : JsValue -> option JsValue;
  metadata : gmap string JsValue
}.

Record AdapterLogger : Type := { wrapped_logger : nat }.

(** The options object passed to [Flagship.start]. *)
Record StartOptions : Type := {
  passthrough : gmap string JsValue;
  fetchNow : bool;
  logManager : option AdapterLogger
}.

(** How an awaited promise settles. *)
Inductive Settled (A : Type) : Type :=
  | Resolved (a : A)
  | Rejected (reason : string).
Arguments Resolved {A} a.
Arguments Rejected {A} reason.

Definition is_resolved {A} (r : Settled A) : bool :=
  match r with Resolved _ => true | Rejected _ => false end.

(** The capabilities of the Flagship SDK the provider consumes, over the
    SDK's own state [W] (global status, visitors, network). The promises
    of [start], [fetchFlags] and [close] may be rejected; the synchronous
    calls return. *)
Class Sdk (W : Type) : Type := {
  Flagship_getStatus : W -> FSSdkStatus;
  Flagship_start : string -> string -> StartOptions -> W -> Settled unit * W;
  Flagship_newVisitor : NewVisitorArgs -> W -> VisitorRef * W;
  Flagship_close : W -> Settled unit * W;
  Visitor_visitorId : VisitorRef -> W -> string;
  Visitor_hasConsented : VisitorRef -> W -> bool;
  Visitor_flagsStatus : VisitorRef -> W -> FSFetchStatus;
  Visitor_fetchFlags : VisitorRef -> W -> Settled unit * W;
  Visitor_updateContext : VisitorRef -> gmap string JsValue -> W -> W;
  Visitor_setConsent : VisitorRef -> bool -> W -> W;
  Visitor_getFlag : VisitorRef -> string -> W -> option Flag
}.

(** What a call of the provider does that is visible from outside: the calls
    into the SDK and the events emitted, in program order. *)
Inductive Event : Type :=
  | CallStart (envId apiKey : string) (options : StartOptions)
  | CallNewVisitor (args : NewVisitorArgs) (returned : VisitorRef)
  | CallFetchFlags (v : VisitorRef)
  | FetchFlagsSettled (v : VisitorRef) (ok : bool)
  | CallUpdateContext (v : VisitorRef) (bag : gmap string JsValue)
  | CallSetConsent (v : VisitorRef) (consent : bool)
  | CallClose
  | Emit (e : ProviderEvents).

(** ** The provider object *)

Record ABTastyProvider : Type := {
  _logger : option AdapterLogger;
  _envId : string;
  _apiKey : string;
  _config : option (gmap string JsValue);
  _visitor : option VisitorRef
}.

Definition with_visitor (v : option VisitorRef) (p : ABTastyProvider)
    : ABTastyProvider :=
  {| _logger := _logger p; _envId := _envId p; _apiKey := _apiKey p;
     _config := _config p; _visitor := v |}.

(** [ResolutionDetails<T>]: the value and the optional flag metadata. *)
Record ResolutionDetails : Type := {
  value : JsValue;
  flagMetadata : option (gmap string JsValue)
}.

(** ** Asynchronous computations *)

Record Machine (W : Type) : Type := {
  this : ABTastyProvider;
  world : W
}.
Arguments this {W} _.
Arguments world {W} _.

Record Outcome (W A : Type) : Type := {
  settled : Settled A;
  final : Machine W;
  events : list Event
}.
Arguments settled {W A} _.
Arguments final {W A} _.
Arguments events {W A} _.

Definition Async (W A : Type) : Type := Machine W -> Outcome W A.

Definition ret {W A} (a : A) : Async W A :=
  fun s => {| settled := Resolved a; final := s; events := [] |}.

(** Sequencing: a rejection skips the rest, the effects so far remain. *)
Definition bind {W A B} (m : Async W A) (k : A -> Async W B) : Async W B :=
  fun s =>
    let o := m s in
    match settled o with
    | Resolved a =>
        let o' := k a (final o) in
        {| settled := settled o'; final := final o';
           events := events o ++ events o' |}
    | Rejected e =>
        {| settled := Rejected e; final := final o; events := events o |}
    end.

Notation "'do!' x <- m ; k" := (bind m (fun x => k))
  (at level 10, x name, m at level 100, k at level 200,
   format "'[v' 'do!'  x  <-  m ; '/' k ']'").

Definition when {W} (c : bool) (m : Async W unit) : Async W unit :=
  if c then m else ret tt.

(** An outcome with the events [evs] in front of its own. *)
Definition after {W A} (evs : list Event) (o : Outcome W A) : Outcome W A :=
  {| settled := settled o; final := final o; events := evs ++ events o |}.

(** ** The class [ABTastyProvider] *)

Record ProviderConstructor : Type := {
  envId : string;
  apiKey : string;
  config : option (gmap string JsValue);
  logger : option nat
}.

Definition constructor (c : ProviderConstructor) : ABTastyProvider :=
  {| _logger :=
       match logger c with
       | Some l => Some {| wrapped_logger := l |}
       | None => None
       end;
     _envId := envId c;
     _apiKey := apiKey c;
     _config := config c;
     _visitor := None |}.

Section Provider.
Context {W : Type} `{!Sdk W}.

(** *** Accesses to the fields and to the SDK *)

Definition get_visitor : Async W (option VisitorRef) :=
  fun s => {| settled := Resolved (_visitor (this s)); final := s;
              events := [] |}.

Definition set_visitor (v : option VisitorRef) : Async W unit :=
  fun s =>
    {| settled := Resolved tt;
       final := {| this := with_visitor v (this s); world := world s |};
       events := [] |}.

Definition get_this : Async W ABTastyProvider :=
  fun s => {| settled := Resolved (this s); final := s; events := [] |}.

(** Reading a property of the SDK or of a visitor. *)
Definition read {A} (f : W -> A) : Async W A :=
  fun s => {| settled := Resolved (f (world s)); final := s;
              events := [] |}.

Definition emit (e : ProviderEvents) : Async W unit :=
  fun s => {| settled := Resolved tt; final := s; events := [Emit e] |}.

Definition call_start (envId apiKey : string) (options : StartOptions)
    : Async W unit :=
  fun s =>
    let r := Flagship_start envId apiKey options (world s) in
    {| settled := r.1; final := {| this := this s; world := r.2 |};
       events := [CallStart envId apiKey options] |}.

Definition call_newVisitor (args : NewVisitorArgs) : Async W VisitorRef :=
  fun s =>
    let r := Flagship_newVisitor args (world s) in
    {| settled := Resolved r.1; final := {| this := this s; world := r.2 |};
       events := [CallNewVisitor args r.1] |}.

Definition call_fetchFlags (v : VisitorRef) : Async W unit :=
  fun s =>
    let r := Visitor_fetchFlags v (world s) in
    {| settled := r.1; final := {| this := this s; world := r.2 |};
       events :=
         [CallFetchFlags v; FetchFlagsSettled v (is_resolved r.1)] |}.

Definition call_updateContext (v : VisitorRef) (bag : gmap string JsValue)
    : Async W unit :=
  fun s =>
    {| settled := Resolved tt;
       final := {| this := this s;
                   world := Visitor_updateContext v bag (world s) |};
       events := [CallUpdateContext v bag] |}.

Definition call_setConsent (v : VisitorRef) (consent : bool)
    : Async W unit :=
  fun s =>
    {| settled := Resolved tt;
       final := {| this := this s;
                   world := Visitor_setConsent v consent (world s) |};
       events := [CallSetConsent v consent] |}.

Definition call_close : Async W unit :=
  fun s =>
    let r := Flagship_close (world s) in
    {| settled := r.1; final := {| this := this s; world := r.2 |};
       events := [CallClose] |}.

(** [this._visitor?.prop]: [undefined] when there is no visitor. *)
Definition visitor_prop {A} (prop : VisitorRef -> W -> A)
    : Async W (option A) :=
  fun s =>
    {| settled :=
         Resolved ((fun v => prop v (world s)) <$> _visitor (this s));
       final := s; events := [] |}.

(** [this._visitor?.m(...)]: nothing happens when there is no visitor. *)
Definition visitor_call (m : VisitorRef -> Async W unit) : Async W unit :=
  fun s =>
    match _visitor (this s) with
    | Some v => m v s
    | None => ret tt s
    end.

(** *** [get status] *)
Definition status (s : Machine W) : ClientProviderStatus :=
  match Flagship_getStatus (world s) with
  | SDK_NOT_INITIALIZED | SDK_INITIALIZING => NOT_READY
  | _ => READY
  end.

(** *** [createVisitor] *)

(** The object [newVisitor] is called with, for the context after the
    default [context || { fsVisitorInfo: { hasConsented: undefined } }]. *)
Definition newVisitor_args (context : option FlagshipContext)
    : NewVisitorArgs :=
  let c :=
    match context with
    | Some c => c
    | None =>
        {| fsVisitorInfo :=
             Some {| hasConsented := None; isAuthenticated := None |};
           targetingKey := None;
           userContext := ∅ |}
    end in
  {| nv_hasConsented := fsVisitorInfo c ≫= hasConsented;
     nv_isAuthenticated := fsVisitorInfo c ≫= isAuthenticated;
     nv_visitorId := targetingKey c;
     nv_context := toPrimitiveRecord (userContext c) |}.

Definition createVisitor (context : option FlagshipContext)
    : Async W VisitorRef :=
  do! visitor <- call_newVisitor (newVisitor_args context);
  do! _ <- call_fetchFlags visitor;
  ret visitor.

(** *** [updateVisitorFlags] *)
Definition updateVisitorFlags (context : FlagshipContext)
    : Async W (option VisitorRef) :=
  do! currentId <- visitor_prop Visitor_visitorId;
  if loose_neq (targetingKey context) currentId then
    do! visitor <- createVisitor (Some context);
    do! _ <- set_visitor (Some visitor);
    ret (Some visitor)
  else
    let hasConsented' := fsVisitorInfo context ≫= hasConsented in
    do! currentConsent <- visitor_prop Visitor_hasConsented;
    do! _ <-
      match hasConsented' with
      | Some consent =>
          when (strict_neq_bool consent currentConsent)
               (visitor_call (fun v => call_setConsent v consent))
      | None => ret tt
      end;
    do! _ <- visitor_call (fun v =>
               call_updateContext v
                 (toPrimitiveRecord (userContext context)));
    do! fetchStatus <- visitor_prop Visitor_flagsStatus;
    do! _ <- when (bool_decide (fetchStatus = Some FETCH_REQUIRED))
                  (visitor_call call_fetchFlags);
    get_visitor.

(** *** [initializeSDK] *)
Definition start_options (p : ABTastyProvider) : StartOptions :=
  {| passthrough :=
       delete "logManager" (delete "fetchNow" (default ∅ (_config p)));
     fetchNow := false;
     logManager := _logger p |}.

Definition initializeSDK : Async W unit :=
  do! sdkStatus <- read Flagship_getStatus;
  if bool_decide (sdkStatus = SDK_NOT_INITIALIZED) then
    do! p <- get_this;
    call_start (_envId p) (_apiKey p) (start_options p)
  else ret tt.

(** *** [initialize] *)
Definition initialize (context : option FlagshipContext) : Async W unit :=
  do! _ <- initializeSDK;
  do! visitor <- createVisitor context;
  do! _ <- set_visitor (Some visitor);
  emit Ready.

(** *** [onContextChange] *)
Definition onContextChange (_oldContext newContext : FlagshipContext)
    : Async W unit :=
  do! _ <- updateVisitorFlags newContext;
  ret tt.

(** *** [onClose] *)
Definition onClose : Async W unit := call_close.

(** *** Resolution *)
Definition resolveEvaluation (s : Machine W) (flagKey : string)
    (defaultValue : JsValue) : ResolutionDetails :=
  let flag :=
    _visitor (this s) ≫= (fun v => Visitor_getFlag v flagKey (world s)) in
  let flagValue := flag ≫= (fun f => getValue f defaultValue) in
  let flagMetadata := metadata <$> flag in
  let sanitizedFlagMetadata :=
    match flagMetadata with
    | Some m =>
        Some (<["slug" := js_nullish (m !! "slug") (JString "")]> m)
    | None => None
    end in
  {| value := js_or flagValue defaultValue;
     flagMetadata := sanitizedFlagMetadata |}.

Definition resolveBooleanEvaluation (s : Machine W) (flagKey : string)
    (defaultValue : bool) : ResolutionDetails :=
  resolveEvaluation s flagKey (JBool defaultValue).

Definition resolveStringEvaluation (s : Machine W) (flagKey : string)
    (defaultValue : string) : ResolutionDetails :=
  resolveEvaluation s flagKey (JString defaultValue).

Definition resolveNumberEvaluation (s : Machine W) (flagKey : string)
    (defaultValue : spec_float) : ResolutionDetails :=
  resolveEvaluation s flagKey (JNumber defaultValue).

Definition resolveObjectEvaluation (s : Machine W) (flagKey : string)
    (defaultValue : JsValue) : ResolutionDetails :=
  resolveEvaluation s flagKey defaultValue.

End Provider.

(** ** Reading a call's events *)

(** The handles created, in order: the objects [Flagship.newVisitor]
    returned. *)
Fixpoint created_handles (evs : list Event) : list VisitorRef :=
  match evs with
  | [] => []
  | CallNewVisitor _ v :: evs => v :: created_handles evs
  | _ :: evs => created_handles evs
  end.

(** The handles [fetchFlags] was called on, in order. *)
Fixpoint fetched_handles (evs : list Event) : list VisitorRef :=
  match evs with
  | [] => []
  | CallFetchFlags v :: evs => v :: fetched_handles evs
  | _ :: evs => fetched_handles evs
  end.

(** The [setConsent] calls, in order. *)
Fixpoint consent_calls (evs : list Event) : list (VisitorRef * bool) :=
  match evs with
  | [] => []
  | CallSetConsent v b :: evs => (v, b) :: consent_calls evs
  | _ :: evs => consent_calls evs
  end.

(** The [updateContext] calls, in order. *)
Fixpoint patch_calls (evs : list Event)
    : list (VisitorRef * gmap string JsValue) :=
  match evs with
  | [] => []
  | CallUpdateContext v bag :: evs => (v, bag) :: patch_calls evs
  | _ :: evs => patch_calls evs
  end.

(** The provider events emitted, in order. *)
Fixpoint emitted (evs : list Event) : list ProviderEvents :=
  match evs with
  | [] => []
  | Emit e :: evs => e :: emitted evs
  | _ :: evs => emitted evs
  end.


(** The identity the identity test of [updateVisitorFlags] compares
    against: [this._visitor?.visitorId]. *)
Definition current_identity {W} `{!Sdk W} (s : Machine W) : option string :=
  (fun v => Visitor_visitorId v (world s)) <$> _visitor (this s).

Section Steps.
Context {W : Type} `{!Sdk W}.

(** The visitor [createVisitor context] obtains from [Flagship.newVisitor]
    in the state [s], the world that call leaves, and how the fetch on
    that visitor then settles. *)
Definition created (context : option FlagshipContext) (s : Machine W)
    : VisitorRef :=
  (Flagship_newVisitor (newVisitor_args context) (world s)).1.

Definition world_created (context : option FlagshipContext)
    (s : Machine W) : W :=
  (Flagship_newVisitor (newVisitor_args context) (world s)).2.

Definition first_fetch (context : option FlagshipContext) (s : Machine W)
    : Settled unit :=
  (Visitor_fetchFlags (created context s) (world_created context s)).1.

(** The events of [createVisitor context] in the state [s]. *)
Definition create_and_fetch (context : option FlagshipContext)
    (s : Machine W) : list Event :=
  [CallNewVisitor (newVisitor_args context) (created context s);
   CallFetchFlags (created context s);
   FetchFlagsSettled (created context s)
     (is_resolved (first_fetch context s))].

(** The patch branch on the visitor [v] in the world [w]: the consent
    values [setConsent] is called with, the world after the consent toggle
    and the attribute patch, and the events of the conditional re-fetch. *)
Definition consent_toggle (context : FlagshipContext) (v : VisitorRef)
    (w : W) : list bool :=
  match fsVisitorInfo context ≫= hasConsented with
  | Some consent =>
      if strict_neq_bool consent (Some (Visitor_hasConsented v w))
      then [consent] else []
  | None => []
  end.

Definition world_patched (context : FlagshipContext) (v : VisitorRef)
    (w : W) : W :=
  Visitor_updateContext v (toPrimitiveRecord (userContext context))
    (foldl (fun w consent => Visitor_setConsent v consent w) w
       (consent_toggle context v w)).

Definition refetch (context : FlagshipContext) (v : VisitorRef) (w : W)
    : list Event :=
  if bool_decide
       (Visitor_flagsStatus v (world_patched context v w) = FETCH_REQUIRED)
  then [CallFetchFlags v;
        FetchFlagsSettled v
          (is_resolved
             (Visitor_fetchFlags v (world_patched context v w)).1)]
  else [].
End Steps.

(** ** A simulated SDK

    A small in-memory stand-in for the Flagship SDK, in the manner of the
    mocked SDK of the provider's test suite: visitors are the cells of a
    list, a fetch marks the visitor [FETCHED] unless the network is down, a
    non-empty patch marks it [FETCH_REQUIRED]. It gives the closed examples
    a concrete world to run in. *)
Module SimSdk.

Record VisitorObject : Type := {
  vo_visitorId : string;
  vo_hasConsented : bool;
  vo_context : gmap string JsValue;
  vo_status : FSFetchStatus
}.

Record World : Type := {
  sdk_status : FSSdkStatus;
  network_up : bool;
  visitors : list VisitorObject;
  campaign : gmap string Flag
}.

Definition with_visitors (vs : list VisitorObject) (w : World) : World :=
  {| sdk_status := sdk_status w; network_up := network_up w;
     visitors := vs; campaign := campaign w |}.

Definition with_status (st : FSFetchStatus) (o : VisitorObject)
    : VisitorObject :=
  {| vo_visitorId := vo_visitorId o; vo_hasConsented := vo_hasConsented o;
     vo_context := vo_context o; vo_status := st |}.

Definition start (_ _ : string) (_ : StartOptions) (w : World)
    : Settled unit * World :=
  if network_up w then
    (Resolved tt,
     {| sdk_status := SDK_INITIALIZED; network_up := network_up w;
        visitors := visitors w; campaign := campaign w |})
  else (Rejected "start failed", w).

Definition newVisitor (args : NewVisitorArgs) (w : World)
    : VisitorRef * World :=
  (length (visitors w),
   with_visitors
     (visitors w ++
      [{| vo_visitorId := default "generated-id" (nv_visitorId args);
          vo_hasConsented := default true (nv_hasConsented args);
          vo_context := nv_context args;
          vo_status := FETCH_REQUIRED |}]) w).

Definition fetchFlags (v : VisitorRef) (w : World) : Settled unit * World :=
  if network_up w then
    (Resolved tt,
     with_visitors (alter (with_status FETCHED) v (visitors w)) w)
  else (Rejected "fetch failed", w).

Definition updateContext (v : VisitorRef) (bag : gmap string JsValue)
    (w : World) : World :=
  with_visitors
    (alter (fun o =>
       {| vo_visitorId := vo_visitorId o;
          vo_hasConsented := vo_hasConsented o;
          vo_context := bag ∪ vo_context o;
          vo_status :=
            match map_to_list bag with
            | [] => vo_status o
            | _ :: _ => FETCH_REQUIRED
            end |}) v (visitors w)) w.

Definition setConsent (v : VisitorRef) (consent : bool) (w : World)
    : World :=
  with_visitors
    (alter (fun o =>
       {| vo_visitorId := vo_visitorId o; vo_hasConsented := consent;
          vo_context := vo_context o; vo_status := vo_status o |})
       v (visitors w)) w.

Global Instance sim_sdk : Sdk World := {|
  Flagship_getStatus := sdk_status;
  Flagship_start := start;
  Flagship_newVisitor := newVisitor;
  Flagship_close := fun w => (Resolved tt, w);
  Visitor_visitorId := fun v w =>
    default "" (vo_visitorId <$> visitors w !! v);
  Visitor_hasConsented := fun v w =>
    default false (vo_hasConsented <$> visitors w !! v);
  Visitor_flagsStatus := fun v w =>
    default PANIC (vo_status <$> visitors w !! v);
  Visitor_fetchFlags := fetchFlags;
  Visitor_updateContext := updateContext;
  Visitor_setConsent := setConsent;
  Visitor_getFlag := fun v key w =>
    match visitors w !! v with
    | Some _ => campaign w !! key
    | None => None
    end
|}.

(** A flag whose evaluation is the stored value, whatever the default. *)
Definition constant_flag (v : option JsValue)
    (meta : gmap string JsValue) : Flag :=
  {| getValue := fun _ => v; metadata := meta |}.

Definition test_campaign : gmap string Flag :=
  {[ "my-flag" :=
       constant_flag (Some (JBool true))
         {[ "campaignId" := JString "123";
            "variationId" := JString "abc" ]};
     "empty-text" :=
       constant_flag (Some (JString ""))
         {[ "campaignId" := JString "123"; "slug" := JString "text" ]} ]}.

Definition fresh_world (up : bool) : World :=
  {| sdk_status := SDK_NOT_INITIALIZED; network_up := up;
     visitors := []; campaign := test_campaign |}.

Definition provider : ABTastyProvider :=
  constructor {| envId := "env-test-id"; apiKey := "api-test-key";
                 config := Some {[ "fetchNow" := JBool true ]};
                 logger := Some 0 |}.

(** Before [initialize]: no visitor yet. *)
Definition fresh (up : bool) : Machine World :=
  {| this := provider; world := fresh_world up |}.

Definition user_123 : FlagshipContext :=
  {| fsVisitorInfo :=
       Some {| hasConsented := Some true; isAuthenticated := None |};
     targetingKey := Some "user-123";
     userContext := {[ "name" := JString "Test User";
                       "device" := JObject [("os", JString "linux")] ]} |}.

Definition user_123_no_consent : FlagshipContext :=
  {| fsVisitorInfo :=
       Some {| hasConsented := Some false; isAuthenticated := None |};
     targetingKey := Some "user-123";
     userContext := ∅ |}.

Definition user_456 : FlagshipContext :=
  {| fsVisitorInfo := None; targetingKey := Some "user-456";
     userContext := ∅ |}.

Definition empty_context : FlagshipContext :=
  {| fsVisitorInfo := None; targetingKey := None; userContext := ∅ |}.


(** After a successful [initialize(user_123)]. *)
Definition ready_123 : Machine World :=
  final (initialize (Some user_123) (fresh true)).

End SimSdk.

(** ** More readers of a call's events *)

(** The [Flagship.start] calls, in order. *)
Fixpoint start_calls (evs : list Event)
    : list (string * string * StartOptions) :=
  match evs with
  | [] => []
  | CallStart envId apiKey options :: evs =>
      (envId, apiKey, options) :: start_calls evs
  | _ :: evs => start_calls evs
  end.

(** The number of [Flagship.close] calls. *)
Fixpoint close_calls (evs : list Event) : nat :=
  match evs with
  | [] => 0
  | CallClose :: evs => S (close_calls evs)
  | _ :: evs => close_calls evs
  end.

(** The fetches that were rejected, in order. *)
Fixpoint rejected_fetches (evs : list Event) : list VisitorRef :=
  match evs with
  | [] => []
  | FetchFlagsSettled v false :: evs => v :: rejected_fetches evs
  | _ :: evs => rejected_fetches evs
  end.

(** The fields the constructor sets are the same in two provider states. *)
Definition same_settings (p q : ABTastyProvider) : Prop :=
  _envId p = _envId q ∧ _apiKey p = _apiKey q ∧ _config p = _config q
  ∧ _logger p = _logger q.

(** ** The class [AdapterLogger]

    The adapter that hands the SDK's log lines to the OpenFeature logger.
    The current time is read from the clock ([new Date()]): it is a
    parameter here, as the local-time fields the code reads. The wrapped
    logger is external: a call on it is recorded with its channel and its
    text. *)
Module Logging.

(** The enum [LogLevel] of the Flagship SDK, by its member names, which
    [LogLevel[level]] gives back. *)
Inductive LogLevel : Type :=
  | NONE | EMERGENCY | ALERT | CRITICAL | ERROR | WARNING | NOTICE | INFO
  | DEBUG | ALL.

Definition level_name (level : LogLevel) : string :=
  match level with
  | NONE => "NONE"
  | EMERGENCY => "EMERGENCY"
  | ALERT => "ALERT"
  | CRITICAL => "CRITICAL"
  | ERROR => "ERROR"
  | WARNING => "WARNING"
  | NOTICE => "NOTICE"
  | INFO => "INFO"
  | DEBUG => "DEBUG"
  | ALL => "ALL"
  end.

(** The fields of a [Date] the formatter reads; [getMonth] counts from 0. *)
Record DateParts : Type := {
  getFullYear : nat;
  getMonth : nat;
  getDate : nat;
  getHours : nat;
  getMinutes : nat;
  getSeconds : nat;
  getMilliseconds : nat
}.

(** [value.toString()] of a non-negative integer: its decimal digits. *)
Definition toString (value : nat) : string :=
  NilEmpty.string_of_uint (Nat.to_uint value).

Fixpoint repeat_string (n : nat) (s : string) : string :=
  match n with
  | 0 => ""
  | S n => s +:+ repeat_string n s
  end.

(** The filler of [padStart] and [padEnd]: [padString] repeated and cut to
    [n] characters. *)
Definition filler (n : nat) (padString : string) : string :=
  String.substring 0 n (repeat_string n padString).

(** [s.padStart(targetLength, padString)]. *)
Definition padStart (targetLength : nat) (padString s : string) : string :=
  if (targetLength <=? String.length s)
     || negb (string_truthy padString)
  then s
  else filler (targetLength - String.length s) padString +:+ s.

(** [s.padEnd(targetLength)], with the default filler, a space. *)
Definition padEnd (targetLength : nat) (s : string) : string :=
  if targetLength <=? String.length s
  then s
  else s +:+ filler (targetLength - String.length s) " ".

Definition formatTwoDigits (value : nat) : string :=
  padStart 2 "0" (toString value).

Definition formatMilliseconds (value : nat) : string :=
  padStart 3 "0" (toString value).

(** The escape character, [\x1b] (code 27). *)
Definition esc : string :=
  String (Ascii.Ascii true true false true true false false false) "".

Definition colorCodes (level : LogLevel) : string :=
  match level with
  | EMERGENCY => esc +:+ "[1;37;41m"
  | ALERT => esc +:+ "[1;37;45m"
  | CRITICAL => esc +:+ "[1;37;41m"
  | ERROR => esc +:+ "[1;37;41m"
  | WARNING => esc +:+ "[33;1m"
  | NOTICE => esc +:+ "[36;1m"
  | INFO => esc +:+ "[32;1m"
  | DEBUG => esc +:+ "[90;1m"
  | NONE => ""
  | ALL => esc +:+ "[90;1m"
  end.

Definition resetColor : string := esc +:+ "[0m".

(** The timestamp [YYYY-MM-DD hh:mm:ss.mmm] of [formatLogOutput]. *)
Definition timestamp (now : DateParts) : string :=
  let year := toString (getFullYear now) in
  let month := formatTwoDigits (getMonth now + 1) in
  let day := formatTwoDigits (getDate now) in
  let hours := formatTwoDigits (getHours now) in
  let minutes := formatTwoDigits (getMinutes now) in
  let seconds := formatTwoDigits (getSeconds now) in
  let milliseconds := formatMilliseconds (getMilliseconds now) in
  year +:+ "-" +:+ month +:+ "-" +:+ day +:+ " " +:+ hours +:+ ":"
  +:+ minutes +:+ ":" +:+ seconds +:+ "." +:+ milliseconds.

Definition formatLogOutput (now : DateParts) (level : LogLevel)
    (message tag : string) : string :=
  let colorCode :=
    if string_truthy (colorCodes level) then colorCodes level else "" in
  let levelName := padEnd 2 (level_name level) in
  colorCode +:+ "[" +:+ timestamp now +:+ "] [Flagship SDK] ["
  +:+ levelName +:+ "] [" +:+ tag +:+ "] " +:+ message +:+ resetColor.

(** The four methods of the OpenFeature [Logger]. *)
Inductive Channel : Type := on_error | on_warn | on_info | on_debug.

(** A call on a wrapped logger. *)
Record LoggerCall : Type := {
  target : nat;
  channel : Channel;
  text : string
}.

Definition call_logger (a : AdapterLogger) (c : Channel) (line : string)
    : list LoggerCall :=
  [{| target := wrapped_logger a; channel := c; text := line |}].

Section Methods.
Variable a : AdapterLogger.
Variable now : DateParts.

Definition emergency (message tag : string) : list LoggerCall :=
  call_logger a on_error (formatLogOutput now EMERGENCY message tag).
Definition alert (message tag : string) : list LoggerCall :=
  call_logger a on_error (formatLogOutput now ALERT message tag).
Definition critical (message tag : string) : list LoggerCall :=
  call_logger a on_error (formatLogOutput now CRITICAL message tag).
Definition error (message tag : string) : list LoggerCall :=
  call_logger a on_error (formatLogOutput now ERROR message tag).
Definition warning (message tag : string) : list LoggerCall :=
  call_logger a on_warn (formatLogOutput now WARNING message tag).
Definition notice (message tag : string) : list LoggerCall :=
  call_logger a on_warn (formatLogOutput now NOTICE message tag).
Definition info (message tag : string) : list LoggerCall :=
  call_logger a on_info (formatLogOutput now INFO message tag).
Definition debug (message tag : string) : list LoggerCall :=
  call_logger a on_debug (formatLogOutput now DEBUG message tag).
Definition log (level : LogLevel) (message tag : string)
    : list LoggerCall :=
  call_logger a on_debug (formatLogOutput now level message tag).
End Methods.

(** The interface [IFlagshipLogManager] the SDK calls the adapter
    through: one of the nine methods, with its arguments. *)
Inductive LogManagerCall : Type :=
  | Emergency | Alert | Critical | Error | Warning | Notice | Info | Debug
  | Log (level : LogLevel).

Definition invoke (a : AdapterLogger) (now : DateParts)
    (m : LogManagerCall) (message tag : string) : list LoggerCall :=
  match m with
  | Emergency => emergency a now message tag
  | Alert => alert a now message tag
  | Critical => critical a now message tag
  | Error => error a now message tag
  | Warning => warning a now message tag
  | Notice => notice a now message tag
  | Info => info a now message tag
  | Debug => debug a now message tag
  | Log level => log a now level message tag
  end.

(** The level a call formats its line with. *)
Definition level_of (m : LogManagerCall) : LogLevel :=
  match m with
  | Emergency => EMERGENCY
  | Alert => ALERT
  | Critical => CRITICAL
  | Error => ERROR
  | Warning => WARNING
  | Notice => NOTICE
  | Info => INFO
  | Debug => DEBUG
  | Log level => level
  end.

(** The date of the test suite: [new Date(2023, 0, 1, 1, 2, 3, 4)]. *)
Definition test_date : DateParts :=
  {| getFullYear := 2023; getMonth := 0; getDate := 1; getHours := 1;
     getMinutes := 2; getSeconds := 3; getMilliseconds := 4 |}.

(** The ranges of the fields of a [Date] with a four-digit year. *)
Definition in_range (now : DateParts) : Prop :=
  1000 ≤ getFullYear now < 10 * 1000 ∧ getMonth now < 12
  ∧ 1 ≤ getDate now ≤ 31 ∧ getHours now < 24 ∧ getMinutes now < 60
  ∧ getSeconds now < 60 ∧ getMilliseconds now < 1000.

End Logging.

(** ** Context translation keeps exactly the primitive entries *)

Lemma toPrimitiveRecord_step_spec (output : gmap string JsValue)
    (key : string) (v : JsValue) :
  toPrimitiveRecord_step output (key, v)
  = if is_primitive v then <[key := v]> output else output.
Proof. by destruct v. Qed.

(** The loop over a list of entries with distinct keys: an entry ends up in
    the output when it is a primitive entry of the list, or was in the
    output before and no primitive entry of the list has its key. *)
Lemma toPrimitiveRecord_loop (l : list (string * JsValue)) :
  NoDup l.*1 →
  ∀ (acc : gmap string JsValue) (k : string) (v : JsValue),
    fold_left toPrimitiveRecord_step l acc !! k = Some v
    ↔ ((k, v) ∈ l ∧ is_primitive v = true)
      ∨ (acc !! k = Some v
         ∧ ∀ v', (k, v') ∈ l → is_primitive v' = false).
Proof.
  induction l as [|[k0 v0] l IH]; intros Hnd acc k v; cbn [fold_left].
  - split.
    + intros Hk. right. split; [done|]. intros v' Hin.
      by apply elem_of_nil in Hin.
    + intros [[Hin _]|[Hk _]]; [by apply elem_of_nil in Hin|done].
  - apply NoDup_cons in Hnd as [Hk0 Hnd].
    assert (Hfresh : ∀ v', (k0, v') ∉ l).
    { intros v' Hin. apply Hk0. apply list_elem_of_fmap. by exists (k0, v'). }
    rewrite (IH Hnd), toPrimitiveRecord_step_spec.
    destruct (is_primitive v0) eqn:Hp0.
    + split.
      * intros [[Hin Hp]|[Hk Hno]].
        -- left. split; [by apply elem_of_cons; right|done].
        -- destruct (decide (k0 = k)) as [->|Hne].
           ++ rewrite lookup_insert_eq in Hk. injection Hk as ->.
              left. split; [by apply elem_of_cons; left|done].
           ++ rewrite lookup_insert_ne in Hk by done.
              right. split; [done|]. intros v' Hin.
              apply elem_of_cons in Hin as [Heq|Hin]; [congruence|by apply Hno].
      * intros [[Hin Hp]|[Hk Hno]].
        -- apply elem_of_cons in Hin as [Heq|Hin].
           ++ injection Heq as -> ->. right.
              rewrite lookup_insert_eq. split; [done|].
              intros v' Hin. by destruct (Hfresh v').
           ++ by left.
        -- right. destruct (decide (k0 = k)) as [->|Hne].
           ++ specialize (Hno v0 ltac:(by apply elem_of_cons; left)).
              congruence.
           ++ rewrite lookup_insert_ne by done. split; [done|].
              intros v' Hin. apply Hno. by apply elem_of_cons; right.
    + split.
      * intros [[Hin Hp]|[Hk Hno]].
        -- left. split; [by apply elem_of_cons; right|done].
        -- right. split; [done|]. intros v' Hin.
           apply elem_of_cons in Hin as [Heq|Hin]; [congruence|by apply Hno].
      * intros [[Hin Hp]|[Hk Hno]].
        -- apply elem_of_cons in Hin as [Heq|Hin]; [congruence|by left].
        -- right. split; [done|]. intros v' Hin. apply Hno.
           by apply elem_of_cons; right.
Qed.

Lemma toPrimitiveRecord_lookup (input : gmap string JsValue)
    (k : string) (v : JsValue) :
  toPrimitiveRecord input !! k = Some v
  ↔ input !! k = Some v ∧ is_primitive v = true.
Proof.
  unfold toPrimitiveRecord.
  rewrite toPrimitiveRecord_loop by apply NoDup_fst_map_to_list.
  rewrite elem_of_map_to_list. split.
  - intros [H|[H _]]; [done|]. by rewrite lookup_empty in H.
  - intros H. by left.
Qed.



(** ** The session reconciler *)

Lemma bind_eq {W A B} (m : Async W A) (k : A → Async W B) (s : Machine W) :
  bind m k s
  = match settled (m s) with
    | Resolved a => after (events (m s)) (k a (final (m s)))
    | Rejected e =>
        {| settled := Rejected e; final := final (m s);
           events := events (m s) |}
    end.
Proof. unfold bind, after. by destruct (settled (m s)). Qed.

Lemma visitor_prop_some {W A} (prop : VisitorRef → W → A) (s : Machine W)
    (v : VisitorRef) :
  _visitor (this s) = Some v →
  visitor_prop prop s
  = {| settled := Resolved (Some (prop v (world s))); final := s;
       events := [] |}.
Proof. intros Hv. unfold visitor_prop. by rewrite Hv. Qed.

Lemma visitor_call_some {W} (m : VisitorRef → Async W unit) (s : Machine W)
    (v : VisitorRef) :
  _visitor (this s) = Some v → visitor_call m s = m v s.
Proof. intros Hv. unfold visitor_call. by rewrite Hv. Qed.

Lemma visitor_prop_none {W A} (prop : VisitorRef → W → A) (s : Machine W) :
  _visitor (this s) = None →
  visitor_prop prop s
  = {| settled := Resolved None; final := s; events := [] |}.
Proof. intros Hv. unfold visitor_prop. by rewrite Hv. Qed.

Lemma visitor_call_none {W} (m : VisitorRef → Async W unit)
    (s : Machine W) :
  _visitor (this s) = None → visitor_call m s = ret tt s.
Proof. intros Hv. unfold visitor_call. by rewrite Hv. Qed.

Ltac async_simpl :=
  unfold after, ret, emit;
  cbn [settled final events this world with_visitor _visitor
       get_visitor set_visitor get_this read when call_newVisitor
       call_updateContext call_setConsent call_fetchFlags call_start
       is_resolved fst snd app fmap option_fmap option_map list_fmap foldl].

(** One step of a computation: the first action of a sequence is run. *)
Ltac async_step := rewrite bind_eq; async_simpl.

(** The same, when the step goes through [this._visitor], known by [Hv]. *)
Ltac rewrite_visitor Hv :=
  repeat match goal with
    | |- context [visitor_call ?m ?s'] =>
        first [rewrite (visitor_call_some m s' _ Hv)
              |rewrite (visitor_call_none m s' Hv)]
    | |- context [visitor_prop ?p ?s'] =>
        first [rewrite (visitor_prop_some p s' _ Hv)
              |rewrite (visitor_prop_none p s' Hv)]
    end.

Ltac with_visitor_step Hv :=
  rewrite bind_eq; async_simpl; rewrite_visitor Hv; async_simpl.

Section Reconciler.
Context {W : Type} `{!Sdk W}.

(** [createVisitor], spelled out. *)
Lemma createVisitor_eq (context : option FlagshipContext) (s : Machine W) :
  createVisitor context s
  = {| settled :=
         match first_fetch context s with
         | Resolved _ => Resolved (created context s)
         | Rejected e => Rejected e
         end;
       final :=
         {| this := this s;
            world := (Visitor_fetchFlags (created context s)
                        (world_created context s)).2 |};
       events := create_and_fetch context s |}.
Proof.
  unfold createVisitor, create_and_fetch, first_fetch, created,
    world_created.
  do 2 async_step.
  by destruct (Visitor_fetchFlags _ _).1 as [[]|e].
Qed.

(** The identity branch of [updateVisitorFlags], spelled out. *)
Lemma updateVisitorFlags_identity_branch (context : FlagshipContext)
    (s : Machine W) :
  loose_neq (targetingKey context) (current_identity s) = true →
  updateVisitorFlags context s
  = {| settled :=
         match first_fetch (Some context) s with
         | Resolved _ => Resolved (Some (created (Some context) s))
         | Rejected e => Rejected e
         end;
       final :=
         {| this :=
              if is_resolved (first_fetch (Some context) s)
              then with_visitor (Some (created (Some context) s)) (this s)
              else this s;
            world := world (final (createVisitor (Some context) s)) |};
       events := create_and_fetch (Some context) s |}.
Proof.
  unfold current_identity. intros Hneq.
  unfold updateVisitorFlags. rewrite bind_eq. unfold visitor_prop.
  async_simpl. rewrite Hneq.
  rewrite bind_eq, createVisitor_eq. async_simpl.
  destruct (first_fetch (Some context) s) as [[]|e]; [|done].
  async_step. by rewrite app_nil_r.
Qed.

Lemma bool_decide_Some_fetch_required (st : FSFetchStatus) :
  bool_decide (Some st = Some FETCH_REQUIRED)
  = bool_decide (st = FETCH_REQUIRED).
Proof. apply bool_decide_ext. split; [by intros [= ->]|by intros ->]. Qed.

(** After the consent toggle and the patch on the visitor [v]: the
    conditional re-fetch and the return. *)
Lemma refetch_tail (s : Machine W) (v : VisitorRef) :
  _visitor (this s) = Some v →
  let o :=
    (do! fetchStatus <- visitor_prop Visitor_flagsStatus;
     do! _ <- when (bool_decide (fetchStatus = Some FETCH_REQUIRED))
                   (visitor_call call_fetchFlags);
     get_visitor) s in
  events o
  = (if bool_decide (Visitor_flagsStatus v (world s) = FETCH_REQUIRED)
     then [CallFetchFlags v;
           FetchFlagsSettled v
             (is_resolved (Visitor_fetchFlags v (world s)).1)]
     else [])
  ∧ this (final o) = this s.
Proof.
  intros Hv. cbn zeta. with_visitor_step Hv.
  rewrite bool_decide_Some_fetch_required.
  destruct (bool_decide (Visitor_flagsStatus v (world s) = FETCH_REQUIRED)).
  - with_visitor_step Hv.
    by destruct (Visitor_fetchFlags v (world s)).1 as [[]|e].
  - by with_visitor_step Hv.
Qed.

(** The patch branch on an existing visitor, spelled out. *)
Lemma updateVisitorFlags_patch_branch (context : FlagshipContext)
    (s : Machine W) (v : VisitorRef) :
  _visitor (this s) = Some v →
  loose_neq (targetingKey context) (current_identity s) = false →
  let o := updateVisitorFlags context s in
  events o
  = (CallSetConsent v <$> consent_toggle context v (world s))
    ++ CallUpdateContext v (toPrimitiveRecord (userContext context))
    :: refetch context v (world s)
  ∧ this (final o) = this s.
Proof.
  unfold current_identity. intros Hv Heq. cbn zeta.
  unfold updateVisitorFlags, consent_toggle, refetch, world_patched,
    consent_toggle.
  with_visitor_step Hv. rewrite Hv in Heq. cbn in Heq. rewrite Heq.
  with_visitor_step Hv.
  destruct (fsVisitorInfo context ≫= hasConsented) as [consent|];
    [destruct (strict_neq_bool consent _)|].
  all: do 2 with_visitor_step Hv.
  all: match goal with
       | |- context [events (?m ?s')] =>
           destruct (refetch_tail s' v Hv) as [-> ->]
       end; done.
Qed.

(** Without a visitor and without a targeting key nothing happens. *)
Lemma updateVisitorFlags_nothing (context : FlagshipContext)
    (s : Machine W) :
  _visitor (this s) = None →
  targetingKey context = None →
  updateVisitorFlags context s
  = {| settled := Resolved None; final := s; events := [] |}.
Proof.
  intros Hv Hk. unfold updateVisitorFlags.
  with_visitor_step Hv. rewrite Hk. unfold loose_neq.
  rewrite bool_decide_eq_false_2 by (by intros []).
  with_visitor_step Hv.
  destruct (fsVisitorInfo context ≫= hasConsented) as [consent|];
    [destruct (strict_neq_bool consent None)|];
    do 3 with_visitor_step Hv;
    rewrite (bool_decide_eq_false_2 (None = Some FETCH_REQUIRED)) by done;
    with_visitor_step Hv; rewrite Hv; by destruct s.
Qed.
End Reconciler.

(** ** Reading the events of a sequence *)

Ltac reader_app l1 :=
  induction l1 as [|[] l1 IH]; intros; cbn; rewrite ?IH; reflexivity.

Lemma created_handles_app (l1 l2 : list Event) :
  created_handles (l1 ++ l2) = created_handles l1 ++ created_handles l2.
Proof. revert l2. reader_app l1. Qed.

Lemma fetched_handles_app (l1 l2 : list Event) :
  fetched_handles (l1 ++ l2) = fetched_handles l1 ++ fetched_handles l2.
Proof. revert l2. reader_app l1. Qed.

Lemma consent_calls_app (l1 l2 : list Event) :
  consent_calls (l1 ++ l2) = consent_calls l1 ++ consent_calls l2.
Proof. revert l2. reader_app l1. Qed.

Lemma patch_calls_app (l1 l2 : list Event) :
  patch_calls (l1 ++ l2) = patch_calls l1 ++ patch_calls l2.
Proof. revert l2. reader_app l1. Qed.

Lemma emitted_app (l1 l2 : list Event) :
  emitted (l1 ++ l2) = emitted l1 ++ emitted l2.
Proof. revert l2. reader_app l1. Qed.


Section Branches.
Context {W : Type} `{!Sdk W}.

(** The consent toggle calls [setConsent] at most once. *)
Lemma consent_toggle_cases (context : FlagshipContext) (v : VisitorRef)
    (w : W) :
  (consent_toggle context v w = []
   ∧ (fsVisitorInfo context ≫= hasConsented = None
      ∨ fsVisitorInfo context ≫= hasConsented
        = Some (Visitor_hasConsented v w)))
  ∨ (∃ consent,
       consent_toggle context v w = [consent]
       ∧ fsVisitorInfo context ≫= hasConsented = Some consent
       ∧ consent ≠ Visitor_hasConsented v w).
Proof.
  unfold consent_toggle, strict_neq_bool.
  destruct (fsVisitorInfo context ≫= hasConsented) as [consent|];
    [|left; by auto].
  case_bool_decide as Hd.
  - right. exists consent. split_and!; try done. by intros ->.
  - left. split; [done|]. by right.
Qed.

(** The conditional re-fetch only fetches. *)
Lemma refetch_cases (context : FlagshipContext) (v : VisitorRef) (w : W) :
  refetch context v w = []
  ∨ ∃ ok, refetch context v w = [CallFetchFlags v; FetchFlagsSettled v ok].
Proof. unfold refetch. case_bool_decide; eauto. Qed.

Lemma onContextChange_eq (oldContext newContext : FlagshipContext)
    (s : Machine W) :
  events (onContextChange oldContext newContext s)
  = events (updateVisitorFlags newContext s)
  ∧ final (onContextChange oldContext newContext s)
    = final (updateVisitorFlags newContext s).
Proof.
  unfold onContextChange. rewrite bind_eq.
  destruct (settled (updateVisitorFlags newContext s)); async_simpl;
    by rewrite ?app_nil_r.
Qed.

(** When the identity test fails without a visitor, there is no targeting
    key either. *)
Lemma same_identity_no_visitor (context : FlagshipContext)
    (s : Machine W) :
  _visitor (this s) = None →
  loose_neq (targetingKey context) (current_identity s) = false →
  targetingKey context = None.
Proof.
  unfold loose_neq, current_identity. intros -> Hd. cbn in Hd.
  apply bool_decide_eq_false in Hd.
  destruct (targetingKey context); [|done]. by destruct Hd.
Qed.

(** [initializeSDK] only ever calls [Flagship.start]. *)
Lemma initializeSDK_events (s : Machine W) :
  (events (initializeSDK s) = []
   ∨ ∃ options,
       events (initializeSDK s)
       = [CallStart (_envId (this s)) (_apiKey (this s)) options])
  ∧ this (final (initializeSDK s)) = this s.
Proof.
  unfold initializeSDK. async_step.
  destruct (bool_decide _); [|by auto].
  async_step. split; [|done]. right. by eexists.
Qed.

(** [initialize], spelled out after [initializeSDK]. *)
Lemma initialize_eq (context : option FlagshipContext) (s : Machine W) :
  initialize context s
  = match settled (initializeSDK s) with
    | Resolved _ =>
        let s1 := final (initializeSDK s) in
        after (events (initializeSDK s))
          match first_fetch context s1 with
          | Resolved _ =>
              {| settled := Resolved tt;
                 final :=
                   {| this :=
                        with_visitor (Some (created context s1)) (this s1);
                      world := world (final (createVisitor context s1)) |};
                 events := create_and_fetch context s1 ++ [Emit Ready] |}
          | Rejected e =>
              {| settled := Rejected e;
                 final := final (createVisitor context s1);
                 events := create_and_fetch context s1 |}
          end
    | Rejected e =>
        {| settled := Rejected e; final := final (initializeSDK s);
           events := events (initializeSDK s) |}
    end.
Proof.
  unfold initialize. rewrite bind_eq.
  destruct (settled (initializeSDK s)) as [[]|e]; [|done].
  cbn zeta. f_equal. rewrite bind_eq, createVisitor_eq. async_simpl.
  destruct (first_fetch context _) as [[]|e]; [|done].
  by async_step.
Qed.
End Branches.

(** ** The specified properties of the session reconciler *)

Section ReconcilerProperties.
Context {W : Type} `{!Sdk W}.

(** C1. When the new context's targeting key differs from the identity of
    the current visitor ([targetingKey != this._visitor?.visitorId], also
    when there is no visitor yet and a key is given), the call to
    [onContextChange] creates exactly one visitor, calls [fetchFlags]
    exactly once and on that new visitor, and calls neither
    [updateContext] nor [setConsent] on any visitor. *)
Theorem identity_change_creates_and_fetches_once
    (oldContext newContext : FlagshipContext) (s : Machine W) :
  loose_neq (targetingKey newContext) (current_identity s) = true →
  let o := onContextChange oldContext newContext s in
  let v := created (Some newContext) s in
  created_handles (events o) = [v]
  ∧ fetched_handles (events o) = [v]
  ∧ patch_calls (events o) = []
  ∧ consent_calls (events o) = [].
Proof.
  intros Hneq. cbn zeta.
  destruct (onContextChange_eq oldContext newContext s) as [-> _].
  by rewrite (updateVisitorFlags_identity_branch _ _ Hneq).
Qed.

(** C2. When the new context's targeting key equals the identity of the
    current visitor, [onContextChange] creates no visitor, and the visitor
    stored after the call is the very object stored before it. *)
Theorem same_identity_keeps_handle
    (oldContext newContext : FlagshipContext) (s : Machine W) :
  loose_neq (targetingKey newContext) (current_identity s) = false →
  let o := onContextChange oldContext newContext s in
  created_handles (events o) = []
  ∧ _visitor (this (final o)) = _visitor (this s).
Proof.
  intros Heq. cbn zeta.
  destruct (onContextChange_eq oldContext newContext s) as [-> ->].
  destruct (_visitor (this s)) as [v|] eqn:Hv.
  - destruct (updateVisitorFlags_patch_branch newContext s v Hv Heq)
      as [-> ->].
    split; [|done].
    rewrite created_handles_app. cbn.
    destruct (consent_toggle_cases newContext v (world s))
      as [[-> _]|(c & -> & _)];
      destruct (refetch_cases newContext v (world s)) as [->|[ok ->]];
      reflexivity.
  - rewrite updateVisitorFlags_nothing;
      eauto using same_identity_no_visitor.
Qed.

(** C7. With the identity unchanged on the visitor [v]: [setConsent] is
    called, once and with the new value, exactly when the new context's
    [fsVisitorInfo.hasConsented] is defined and differs from the visitor's
    consent; it is not called at all when the consent is undefined or
    unchanged; and every [setConsent] call precedes the single
    [updateContext] call, which carries the filtered attribute bag. *)
Theorem consent_toggle_before_patch
    (oldContext newContext : FlagshipContext) (s : Machine W)
    (v : VisitorRef) :
  _visitor (this s) = Some v →
  targetingKey newContext = Some (Visitor_visitorId v (world s)) →
  let o := onContextChange oldContext newContext s in
  let bag := toPrimitiveRecord (userContext newContext) in
  let asked := fsVisitorInfo newContext ≫= hasConsented in
  (∀ consent,
     consent_calls (events o) = [(v, consent)]
     ↔ asked = Some consent ∧ consent ≠ Visitor_hasConsented v (world s))
  ∧ (consent_calls (events o) = []
     ↔ asked = None ∨ asked = Some (Visitor_hasConsented v (world s)))
  ∧ length (consent_calls (events o)) ≤ 1
  ∧ patch_calls (events o) = [(v, bag)]
  ∧ ∃ rest,
      events o
      = ((fun '(v', consent) => CallSetConsent v' consent)
           <$> consent_calls (events o))
        ++ CallUpdateContext v bag :: rest
      ∧ consent_calls rest = [] ∧ patch_calls rest = [].
Proof.
  intros Hv Hkey. cbn zeta.
  assert (loose_neq (targetingKey newContext) (current_identity s) = false)
    as Heq.
  { unfold loose_neq, current_identity. rewrite Hv, Hkey.
    by apply bool_decide_eq_false_2; intros []. }
  destruct (onContextChange_eq oldContext newContext s) as [-> _].
  destruct (updateVisitorFlags_patch_branch newContext s v Hv Heq)
    as [-> _].
  rewrite consent_calls_app, patch_calls_app.
  assert (consent_calls (refetch newContext v (world s)) = []
          ∧ patch_calls (refetch newContext v (world s)) = [])
    as [Hrc Hrp].
  { by destruct (refetch_cases newContext v (world s)) as [->|[ok ->]]. }
  cbn [consent_calls patch_calls]. rewrite Hrc, Hrp.
  destruct (consent_toggle_cases newContext v (world s))
    as [[-> Hno]|(c & -> & Hc & Hne)]; cbn.
  - split_and!; [| |lia|done|by eexists].
    + intros consent. split; [done|]. intros [Hask Hdiff].
      destruct Hno as [Hno|Hno]; congruence.
    + done.
  - split_and!; [| |lia|done|by eexists].
    + intros consent. split.
      * intros [= <-]. done.
      * intros [Hask _]. congruence.
    + split; [done|]. intros [Hask|Hask]; congruence.
Qed.

(** C8, as the code has it. When there is no visitor yet and the new
    context has a targeting key, [onContextChange] takes the identity
    branch: it runs [createVisitor], the create-and-fetch sequence of
    [initialize], on the new context (identity, consent and filtered
    attributes as given), and stores the new visitor once its fetch has
    resolved. *)
Theorem first_context_change_creates_visitor
    (oldContext newContext : FlagshipContext) (s : Machine W)
    (key : string) :
  _visitor (this s) = None →
  targetingKey newContext = Some key →
  let o := onContextChange oldContext newContext s in
  let v := created (Some newContext) s in
  events o = events (createVisitor (Some newContext) s)
  ∧ events o
    = [CallNewVisitor
         {| nv_hasConsented := fsVisitorInfo newContext ≫= hasConsented;
            nv_isAuthenticated :=
              fsVisitorInfo newContext ≫= isAuthenticated;
            nv_visitorId := Some key;
            nv_context := toPrimitiveRecord (userContext newContext) |}
         v;
       CallFetchFlags v;
       FetchFlagsSettled v
         (is_resolved (first_fetch (Some newContext) s))]
  ∧ world (final o) = world (final (createVisitor (Some newContext) s))
  ∧ _visitor (this (final o))
    = (if is_resolved (first_fetch (Some newContext) s)
       then Some v else None).
Proof.
  intros Hv Hkey. cbn zeta.
  destruct (onContextChange_eq oldContext newContext s) as [-> ->].
  assert (loose_neq (targetingKey newContext) (current_identity s) = true)
    as Hneq.
  { unfold loose_neq, current_identity. rewrite Hv, Hkey.
    by apply bool_decide_eq_true_2. }
  rewrite (updateVisitorFlags_identity_branch _ _ Hneq), createVisitor_eq.
  cbn [events final world this].
  split_and!; [done| |done|].
  - unfold create_and_fetch, newVisitor_args. by rewrite Hkey.
  - rewrite <-Hv. by destruct (first_fetch _ _).
Qed.

End ReconcilerProperties.

(** ** The specified properties of the context translation *)

Section TranslationProperties.
Context {W : Type} `{!Sdk W}.



End TranslationProperties.

(** ** The specified properties of the resolution layer *)

(** The falsy values: [undefined], [null], [false], the zeros, [NaN] and the
    empty string. *)
Lemma truthy_opt_false_iff (v : option JsValue) :
  truthy_opt v = false
  ↔ v = None ∨ v = Some JNull ∨ v = Some (JBool false)
    ∨ (∃ sign, v = Some (JNumber (S754_zero sign)))
    ∨ v = Some (JNumber S754_nan) ∨ v = Some (JString "").
Proof.
  split.
  - destruct v as [[| [] | [] | [] | | | |]|]; cbn; intros Hf;
      try discriminate; eauto 10.
  - intros [->|[->|[->|[[sign ->]|[->| ->]]]]]; reflexivity.
Qed.

Section ResolutionProperties.
Context {W : Type} `{!Sdk W}.

Lemma resolveEvaluation_found (s : Machine W) (flagKey : string)
    (defaultValue : JsValue) (v : VisitorRef) (flag : Flag) :
  _visitor (this s) = Some v →
  Visitor_getFlag v flagKey (world s) = Some flag →
  resolveEvaluation s flagKey defaultValue
  = {| value := js_or (getValue flag defaultValue) defaultValue;
       flagMetadata :=
         Some (<["slug" := js_nullish (metadata flag !! "slug")
                             (JString "")]> (metadata flag)) |}.
Proof.
  intros Hv Hflag. unfold resolveEvaluation. rewrite Hv. cbn.
  by rewrite Hflag.
Qed.

Lemma js_or_falsy (a : option JsValue) (b : JsValue) :
  truthy_opt a = false → js_or a b = b.
Proof. destruct a as [a|]; cbn; [|done]. by intros ->. Qed.

(** C4. When the flag exists on the current visitor and its [getValue]
    returns a falsy value ([undefined], [null], [false], a zero, [NaN] or
    the empty string), [resolveEvaluation], and so each typed
    [resolve*Evaluation], returns the caller's default value. *)
Theorem falsy_value_resolves_to_default (s : Machine W) (flagKey : string)
    (v : VisitorRef) (flag : Flag) :
  _visitor (this s) = Some v →
  Visitor_getFlag v flagKey (world s) = Some flag →
  (∀ defaultValue,
     truthy_opt (getValue flag defaultValue) = false →
     value (resolveEvaluation s flagKey defaultValue) = defaultValue)
  ∧ (∀ d, truthy_opt (getValue flag (JBool d)) = false →
          value (resolveBooleanEvaluation s flagKey d) = JBool d)
  ∧ (∀ d, truthy_opt (getValue flag (JString d)) = false →
          value (resolveStringEvaluation s flagKey d) = JString d)
  ∧ (∀ d, truthy_opt (getValue flag (JNumber d)) = false →
          value (resolveNumberEvaluation s flagKey d) = JNumber d)
  ∧ (∀ d, truthy_opt (getValue flag d) = false →
          value (resolveObjectEvaluation s flagKey d) = d).
Proof.
  intros Hv Hflag.
  unfold resolveBooleanEvaluation, resolveStringEvaluation,
    resolveNumberEvaluation, resolveObjectEvaluation.
  split_and!; intros d Hfalsy;
    rewrite (resolveEvaluation_found s flagKey _ v flag Hv Hflag);
    by apply js_or_falsy.
Qed.

(** C5. When there is no visitor, or the visitor's [getFlag] returns
    [undefined] for the key, resolution returns the default value
    unchanged with [undefined] metadata; it is a total function, so it
    returns for every state, key and default. *)
Theorem missing_flag_resolves_to_default (s : Machine W)
    (flagKey : string) (defaultValue : JsValue) :
  _visitor (this s) = None
  ∨ (∃ v, _visitor (this s) = Some v
          ∧ Visitor_getFlag v flagKey (world s) = None) →
  resolveEvaluation s flagKey defaultValue
  = {| value := defaultValue; flagMetadata := None |}.
Proof.
  unfold resolveEvaluation.
  intros [Hv|(v & Hv & Hflag)]; rewrite Hv; cbn; [done|].
  by rewrite Hflag.
Qed.

(** C9. When the flag exists on the current visitor, the metadata returned
    has a [slug] field: the SDK's slug when its metadata defines one, the
    empty string when it omits it (or has [null] there); every other field
    of the SDK's metadata is returned unchanged. *)
Theorem metadata_always_has_slug (s : Machine W) (flagKey : string)
    (defaultValue : JsValue) (v : VisitorRef) (flag : Flag) :
  _visitor (this s) = Some v →
  Visitor_getFlag v flagKey (world s) = Some flag →
  ∃ m,
    flagMetadata (resolveEvaluation s flagKey defaultValue) = Some m
    ∧ is_Some (m !! "slug")
    ∧ (∀ slug, metadata flag !! "slug" = Some slug → slug ≠ JNull →
               m !! "slug" = Some slug)
    ∧ (metadata flag !! "slug" = None → m !! "slug" = Some (JString ""))
    ∧ (metadata flag !! "slug" = Some JNull →
       m !! "slug" = Some (JString ""))
    ∧ (∀ field, field ≠ "slug" → m !! field = metadata flag !! field).
Proof.
  intros Hv Hflag.
  rewrite (resolveEvaluation_found s flagKey _ v flag Hv Hflag).
  eexists. split; [reflexivity|].
  rewrite lookup_insert_eq. split_and!.
  - by eexists.
  - intros slug -> Hnn. by destruct slug.
  - by intros ->.
  - by intros ->.
  - intros field Hne. by rewrite lookup_insert_ne.
Qed.

(** C10. Each of the four typed resolution methods is the generic
    [resolveEvaluation] at its type: on the same state, key and default
    they return what it returns. *)
Theorem typed_resolutions_are_resolveEvaluation (s : Machine W)
    (flagKey : string) :
  (∀ d, resolveBooleanEvaluation s flagKey d
        = resolveEvaluation s flagKey (JBool d))
  ∧ (∀ d, resolveStringEvaluation s flagKey d
          = resolveEvaluation s flagKey (JString d))
  ∧ (∀ d, resolveNumberEvaluation s flagKey d
          = resolveEvaluation s flagKey (JNumber d))
  ∧ (∀ d, resolveObjectEvaluation s flagKey d
          = resolveEvaluation s flagKey d).
Proof. by split_and!. Qed.
End ResolutionProperties.

(** ** The properties at work on the simulated SDK *)

Module Scenarios.
Import SimSdk.

(** The scenario of the test suite: [initialize] with a full context
    starts the SDK, creates the visitor with the filtered attributes,
    fetches once and emits [Ready]. *)
Example initialize_full_context :
  events (initialize (Some user_123) (fresh true))
  = [CallStart "env-test-id" "api-test-key"
       {| passthrough := ∅; fetchNow := false;
          logManager := Some {| wrapped_logger := 0 |} |};
     CallNewVisitor
       {| nv_hasConsented := Some true; nv_isAuthenticated := None;
          nv_visitorId := Some "user-123";
          nv_context := {[ "name" := JString "Test User" ]} |} 0;
     CallFetchFlags 0; FetchFlagsSettled 0 true; Emit Ready].
Proof. vm_compute. reflexivity. Qed.

(** An empty context after a known user is an identity change to an
    anonymous visitor. *)
Example empty_context_after_user :
  events (onContextChange user_123 empty_context ready_123)
  = [CallNewVisitor
       {| nv_hasConsented := None; nv_isAuthenticated := None;
          nv_visitorId := None; nv_context := ∅ |} 1;
     CallFetchFlags 1; FetchFlagsSettled 1 true].
Proof. vm_compute. reflexivity. Qed.

(** A patch with the same identity: one [updateContext], no new visitor,
    and a re-fetch because the SDK marked the flags stale. *)
Example patch_same_identity :
  events (onContextChange empty_context user_123 ready_123)
  = [CallUpdateContext 0 {[ "name" := JString "Test User" ]};
     CallFetchFlags 0; FetchFlagsSettled 0 true].
Proof. vm_compute. reflexivity. Qed.

Lemma identity_change_witness :
  loose_neq (targetingKey user_456) (current_identity ready_123) = true
  ∧ created_handles
      (events (onContextChange user_123 user_456 ready_123)) = [1]
  ∧ fetched_handles
      (events (onContextChange user_123 user_456 ready_123)) = [1]
  ∧ patch_calls (events (onContextChange user_123 user_456 ready_123)) = []
  ∧ consent_calls
      (events (onContextChange user_123 user_456 ready_123)) = [].
Proof.
  split; [vm_compute; reflexivity|].
  exact (@identity_change_creates_and_fetches_once World sim_sdk
           user_123 user_456 ready_123 ltac:(vm_compute; reflexivity)).
Defined.

Lemma same_identity_witness :
  loose_neq (targetingKey user_123_no_consent) (current_identity ready_123)
  = false
  ∧ created_handles
      (events (onContextChange user_123 user_123_no_consent ready_123))
    = []
  ∧ _visitor
      (this (final
         (onContextChange user_123 user_123_no_consent ready_123)))
    = Some 0.
Proof.
  split; [vm_compute; reflexivity|].
  exact (@same_identity_keeps_handle World sim_sdk
           user_123 user_123_no_consent ready_123
           ltac:(vm_compute; reflexivity)).
Defined.

Lemma consent_toggle_witness :
  (_visitor (this ready_123) = Some 0
   ∧ targetingKey user_123_no_consent
     = Some (Visitor_visitorId 0 (world ready_123)))
  ∧ consent_calls
      (events (onContextChange user_123 user_123_no_consent ready_123))
    = [(0, false)].
Proof.
  split; [split; vm_compute; reflexivity|].
  apply (proj1 (@consent_toggle_before_patch World sim_sdk
                  user_123 user_123_no_consent ready_123 0
                  ltac:(vm_compute; reflexivity)
                  ltac:(vm_compute; reflexivity)) false).
  split; [vm_compute; reflexivity|vm_compute; discriminate].
Defined.

Lemma first_context_change_witness :
  (_visitor (this (fresh true)) = None
   ∧ targetingKey user_123 = Some "user-123")
  ∧ created_handles
      (events (onContextChange empty_context user_123 (fresh true))) = [0]
  ∧ _visitor
      (this (final (onContextChange empty_context user_123 (fresh true))))
    = Some 0.
Proof.
  split; [split; reflexivity|].
  pose proof (@first_context_change_creates_visitor World sim_sdk
                empty_context user_123 (fresh true) "user-123"
                ltac:(vm_compute; reflexivity)
                ltac:(vm_compute; reflexivity)) as (_ & Hevents & _ & Hv).
  split; [by rewrite Hevents|exact Hv].
Defined.

(** Against C8 as worded: with no visitor yet and a context without a
    targeting key, [undefined != undefined] is false, so the identity
    branch is not taken: no visitor is created and none is stored. *)
Lemma context_change_without_key_creates_nothing :
  _visitor (this (fresh true)) = None
  ∧ targetingKey empty_context = None
  ∧ events (onContextChange empty_context empty_context (fresh true)) = []
  ∧ ¬ (∃ v,
         created_handles
           (events (onContextChange empty_context empty_context
                      (fresh true))) = [v]
         ∧ _visitor
             (this (final (onContextChange empty_context empty_context
                             (fresh true)))) = Some v).
Proof.
  split_and!; [reflexivity..|].
  intros (v & Hcreated & _). vm_compute in Hcreated. discriminate.
Qed.



Lemma falsy_value_witness :
  (_visitor (this ready_123) = Some 0
   ∧ Visitor_getFlag 0 "empty-text" (world ready_123)
     = Some (constant_flag (Some (JString ""))
               {[ "campaignId" := JString "123";
                  "slug" := JString "text" ]}))
  ∧ value (resolveStringEvaluation ready_123 "empty-text" "fallback")
    = JString "fallback".
Proof.
  split; [split; vm_compute; reflexivity|].
  apply (proj1 (proj2 (proj2
           (@falsy_value_resolves_to_default World sim_sdk
              ready_123 "empty-text" 0
              (constant_flag (Some (JString ""))
                 {[ "campaignId" := JString "123";
                    "slug" := JString "text" ]})
              ltac:(vm_compute; reflexivity) ltac:(vm_compute; reflexivity))))).
  reflexivity.
Defined.

Lemma missing_flag_witness :
  _visitor (this (fresh true)) = None
  ∧ resolveEvaluation (fresh true) "non-existent-flag"
      (JString "default-value")
    = {| value := JString "default-value"; flagMetadata := None |}.
Proof.
  split; [reflexivity|].
  apply missing_flag_resolves_to_default. left. reflexivity.
Defined.

Lemma metadata_slug_witness :
  (_visitor (this ready_123) = Some 0
   ∧ Visitor_getFlag 0 "my-flag" (world ready_123)
     = Some (constant_flag (Some (JBool true))
               {[ "campaignId" := JString "123";
                  "variationId" := JString "abc" ]}))
  ∧ ∃ m,
      flagMetadata (resolveBooleanEvaluation ready_123 "my-flag" false)
      = Some m
      ∧ m !! "slug" = Some (JString "")
      ∧ m !! "campaignId" = Some (JString "123").
Proof.
  split; [split; vm_compute; reflexivity|].
  destruct (@metadata_always_has_slug World sim_sdk
              ready_123 "my-flag" (JBool false) 0
              (constant_flag (Some (JBool true))
                 {[ "campaignId" := JString "123";
                    "variationId" := JString "abc" ]})
              ltac:(vm_compute; reflexivity) ltac:(vm_compute; reflexivity))
    as (m & Hm & _ & _ & Hnone & _ & Hother).
  exists m. split; [exact Hm|]. split.
  - apply Hnone. vm_compute. reflexivity.
  - rewrite Hother; [vm_compute; reflexivity|discriminate].
Defined.
End Scenarios.


(** ** Further properties of the session reconciler *)

Lemma start_calls_app (l1 l2 : list Event) :
  start_calls (l1 ++ l2) = start_calls l1 ++ start_calls l2.
Proof. revert l2. reader_app l1. Qed.

Lemma close_calls_app (l1 l2 : list Event) :
  close_calls (l1 ++ l2) = close_calls l1 + close_calls l2.
Proof. revert l2. reader_app l1. Qed.

Lemma rejected_fetches_app (l1 l2 : list Event) :
  rejected_fetches (l1 ++ l2) = rejected_fetches l1 ++ rejected_fetches l2.
Proof.
  revert l2. induction l1 as [|[| | |v []| | | |] l1 IH]; intros; cbn;
    rewrite ?IH; reflexivity.
Qed.

Section ReconcilerExtras.
Context {W : Type} `{!Sdk W}.

Lemma onContextChange_settled (oldContext newContext : FlagshipContext)
    (s : Machine W) :
  settled (onContextChange oldContext newContext s)
  = match settled (updateVisitorFlags newContext s) with
    | Resolved _ => Resolved tt
    | Rejected e => Rejected e
    end.
Proof.
  unfold onContextChange. rewrite bind_eq.
  by destruct (settled (updateVisitorFlags newContext s)).
Qed.

(** The conditional re-fetch and the return, with how they settle. *)
Lemma refetch_tail_settled (s : Machine W) (v : VisitorRef) :
  _visitor (this s) = Some v →
  settled
    ((do! fetchStatus <- visitor_prop Visitor_flagsStatus;
      do! _ <- when (bool_decide (fetchStatus = Some FETCH_REQUIRED))
                    (visitor_call call_fetchFlags);
      get_visitor) s)
  = if bool_decide (Visitor_flagsStatus v (world s) = FETCH_REQUIRED)
    then match (Visitor_fetchFlags v (world s)).1 with
         | Resolved _ => Resolved (Some v)
         | Rejected e => Rejected e
         end
    else Resolved (Some v).
Proof.
  intros Hv. with_visitor_step Hv.
  rewrite bool_decide_Some_fetch_required.
  destruct (bool_decide (Visitor_flagsStatus v (world s) = FETCH_REQUIRED)).
  - with_visitor_step Hv.
    destruct (Visitor_fetchFlags v (world s)).1 as [[]|e]; [|done].
    cbn [settled this final _visitor]. by rewrite Hv.
  - with_visitor_step Hv. by rewrite Hv.
Qed.

(** How the patch branch settles. *)
Lemma updateVisitorFlags_patch_settled (context : FlagshipContext)
    (s : Machine W) (v : VisitorRef) :
  _visitor (this s) = Some v →
  loose_neq (targetingKey context) (current_identity s) = false →
  settled (updateVisitorFlags context s)
  = if bool_decide
         (Visitor_flagsStatus v (world_patched context v (world s))
          = FETCH_REQUIRED)
    then match (Visitor_fetchFlags v
                  (world_patched context v (world s))).1 with
         | Resolved _ => Resolved (Some v)
         | Rejected e => Rejected e
         end
    else Resolved (Some v).
Proof.
  unfold current_identity. intros Hv Heq.
  unfold updateVisitorFlags, world_patched, consent_toggle.
  with_visitor_step Hv. rewrite Hv in Heq. cbn in Heq. rewrite Heq.
  with_visitor_step Hv.
  destruct (fsVisitorInfo context ≫= hasConsented) as [consent|];
    [destruct (strict_neq_bool consent _)|].
  all: do 2 with_visitor_step Hv.
  all: match goal with
       | |- context [settled (?m ?s')] =>
           rewrite (refetch_tail_settled s' v Hv)
       end; done.
Qed.

(** The world the conditional re-fetch leaves. *)
Lemma refetch_tail_world (s : Machine W) (v : VisitorRef) :
  _visitor (this s) = Some v →
  world (final
    ((do! fetchStatus <- visitor_prop Visitor_flagsStatus;
      do! _ <- when (bool_decide (fetchStatus = Some FETCH_REQUIRED))
                    (visitor_call call_fetchFlags);
      get_visitor) s))
  = if bool_decide (Visitor_flagsStatus v (world s) = FETCH_REQUIRED)
    then (Visitor_fetchFlags v (world s)).2
    else world s.
Proof.
  intros Hv. with_visitor_step Hv.
  rewrite bool_decide_Some_fetch_required.
  destruct (bool_decide (Visitor_flagsStatus v (world s) = FETCH_REQUIRED)).
  - with_visitor_step Hv.
    by destruct (Visitor_fetchFlags v (world s)).1 as [[]|e].
  - by with_visitor_step Hv.
Qed.

(** The world the patch branch leaves. *)
Lemma updateVisitorFlags_patch_world (context : FlagshipContext)
    (s : Machine W) (v : VisitorRef) :
  _visitor (this s) = Some v →
  loose_neq (targetingKey context) (current_identity s) = false →
  world (final (updateVisitorFlags context s))
  = if bool_decide
         (Visitor_flagsStatus v (world_patched context v (world s))
          = FETCH_REQUIRED)
    then (Visitor_fetchFlags v (world_patched context v (world s))).2
    else world_patched context v (world s).
Proof.
  unfold current_identity. intros Hv Heq.
  unfold updateVisitorFlags, world_patched, consent_toggle.
  with_visitor_step Hv. rewrite Hv in Heq. cbn in Heq. rewrite Heq.
  with_visitor_step Hv.
  destruct (fsVisitorInfo context ≫= hasConsented) as [consent|];
    [destruct (strict_neq_bool consent _)|].
  all: do 2 with_visitor_step Hv.
  all: match goal with
       | |- context [final (?m ?s')] =>
           rewrite (refetch_tail_world s' v Hv)
       end; done.
Qed.

(** The three ways a call to [updateVisitorFlags] can go. *)
Lemma updateVisitorFlags_cases (context : FlagshipContext) (s : Machine W) :
  (loose_neq (targetingKey context) (current_identity s) = true
   ∧ events (updateVisitorFlags context s)
     = create_and_fetch (Some context) s)
  ∨ (∃ v, _visitor (this s) = Some v
          ∧ loose_neq (targetingKey context) (current_identity s) = false
          ∧ events (updateVisitorFlags context s)
            = (CallSetConsent v <$> consent_toggle context v (world s))
              ++ CallUpdateContext v
                   (toPrimitiveRecord (userContext context))
              :: refetch context v (world s))
  ∨ (_visitor (this s) = None ∧ targetingKey context = None
     ∧ updateVisitorFlags context s
       = {| settled := Resolved None; final := s; events := [] |}).
Proof.
  destruct (loose_neq (targetingKey context) (current_identity s)) eqn:Hid.
  - left. by rewrite (updateVisitorFlags_identity_branch _ _ Hid).
  - right. destruct (_visitor (this s)) as [v|] eqn:Hv.
    + left. exists v. split_and!; [done..|].
      by destruct (updateVisitorFlags_patch_branch context s v Hv Hid).
    + right.
      pose proof (same_identity_no_visitor context s Hv Hid) as Hkey.
      split_and!; [done..|]. by apply updateVisitorFlags_nothing.
Qed.
End ReconcilerExtras.

Section ReconcilerExtraProperties.
Context {W : Type} `{!Sdk W}.

(** X1. A call to [onContextChange] creates at most one visitor and
    fetches at most once; it never starts or closes the SDK and never
    emits a provider event. *)
Theorem onContextChange_at_most_once
    (oldContext newContext : FlagshipContext) (s : Machine W) :
  length (created_handles
            (events (onContextChange oldContext newContext s))) ≤ 1
  ∧ length (fetched_handles
              (events (onContextChange oldContext newContext s))) ≤ 1
  ∧ start_calls (events (onContextChange oldContext newContext s)) = []
  ∧ close_calls (events (onContextChange oldContext newContext s)) = 0
  ∧ emitted (events (onContextChange oldContext newContext s)) = [].
Proof.
  destruct (onContextChange_eq oldContext newContext s) as [-> _].
  destruct (updateVisitorFlags_cases newContext s)
    as [[_ ->]|[(v & _ & _ & ->)|(_ & _ & ->)]].
  - cbn. split_and!; (lia || done).
  - rewrite created_handles_app, fetched_handles_app, start_calls_app,
      close_calls_app, emitted_app.
    destruct (consent_toggle_cases newContext v (world s))
      as [[-> _]|(c & -> & _)];
      destruct (refetch_cases newContext v (world s)) as [->|[ok ->]];
      cbn; split_and!; (lia || done).
  - cbn. split_and!; (lia || done).
Qed.

(** X2. [onContextChange] is rejected only by a rejected fetch: it
    resolves exactly when no fetch of the call was rejected, so a call
    that fetches nothing always resolves. *)
Theorem onContextChange_rejected_only_by_fetch
    (oldContext newContext : FlagshipContext) (s : Machine W) :
  is_resolved (settled (onContextChange oldContext newContext s)) = true
  ↔ rejected_fetches (events (onContextChange oldContext newContext s)) = [].
Proof.
  rewrite onContextChange_settled.
  destruct (onContextChange_eq oldContext newContext s) as [-> _].
  destruct (updateVisitorFlags_cases newContext s)
    as [[Hid ->]|[(v & Hv & Hid & ->)|(_ & _ & ->)]].
  - rewrite (updateVisitorFlags_identity_branch _ _ Hid).
    unfold create_and_fetch. cbn [settled].
    by destruct (first_fetch (Some newContext) s) as [[]|e].
  - rewrite (updateVisitorFlags_patch_settled _ _ _ Hv Hid).
    rewrite rejected_fetches_app. unfold refetch.
    assert (rejected_fetches
              (CallSetConsent v <$> consent_toggle newContext v (world s))
            = []) as ->.
    { by destruct (consent_toggle_cases newContext v (world s))
        as [[-> _]|(c & -> & _)]. }
    cbn [app rejected_fetches].
    destruct (bool_decide _); [|done].
    by destruct (Visitor_fetchFlags v _).1 as [[]|e].
  - done.
Qed.

(** X3. In the patch branch (identity unchanged on the visitor [v]) the
    flags are fetched again exactly when, after the consent toggle and the
    attribute patch, the SDK reports the visitor's flags as
    [FETCH_REQUIRED]; the fetch is then on [v]. Otherwise nothing is
    fetched and the call resolves. *)
Theorem refetch_only_when_required
    (oldContext newContext : FlagshipContext) (s : Machine W)
    (v : VisitorRef) :
  _visitor (this s) = Some v →
  targetingKey newContext = Some (Visitor_visitorId v (world s)) →
  let o := onContextChange oldContext newContext s in
  let patched := world_patched newContext v (world s) in
  (Visitor_flagsStatus v patched = FETCH_REQUIRED →
   fetched_handles (events o) = [v])
  ∧ (Visitor_flagsStatus v patched ≠ FETCH_REQUIRED →
     fetched_handles (events o) = []
     ∧ settled o = Resolved tt
     ∧ world (final o) = patched).
Proof.
  intros Hv Hkey. cbn zeta.
  assert (loose_neq (targetingKey newContext) (current_identity s) = false)
    as Heq.
  { unfold loose_neq, current_identity. rewrite Hv, Hkey.
    by apply bool_decide_eq_false_2; intros []. }
  rewrite onContextChange_settled.
  destruct (onContextChange_eq oldContext newContext s) as [-> ->].
  rewrite (updateVisitorFlags_patch_settled _ _ _ Hv Heq).
  destruct (updateVisitorFlags_patch_branch newContext s v Hv Heq)
    as [-> _].
  rewrite fetched_handles_app. unfold refetch.
  assert (fetched_handles
            (CallSetConsent v <$> consent_toggle newContext v (world s))
          = []) as ->.
  { by destruct (consent_toggle_cases newContext v (world s))
      as [[-> _]|(c & -> & _)]. }
  cbn [app fetched_handles].
  split; intros Hst.
  - by rewrite bool_decide_eq_true_2.
  - rewrite bool_decide_eq_false_2 by done. split_and!; [done..|].
    rewrite (updateVisitorFlags_patch_world _ _ _ Hv Heq).
    by rewrite bool_decide_eq_false_2.
Qed.

(** X4. While a visitor is stored, a context without a targeting key is
    always an identity change: [onContextChange] creates a new, anonymous
    visitor (no [visitorId] is passed to the SDK), fetches for it, and does
    not patch the visitor it replaces. *)
Theorem missing_key_replaces_visitor
    (oldContext newContext : FlagshipContext) (s : Machine W)
    (v : VisitorRef) :
  _visitor (this s) = Some v →
  targetingKey newContext = None →
  let o := onContextChange oldContext newContext s in
  let v' := created (Some newContext) s in
  (∃ args, events o
           = [CallNewVisitor args v'; CallFetchFlags v';
              FetchFlagsSettled v'
                (is_resolved (first_fetch (Some newContext) s))]
           ∧ nv_visitorId args = None
           ∧ nv_context args = toPrimitiveRecord (userContext newContext))
  ∧ (is_resolved (first_fetch (Some newContext) s) = true →
     _visitor (this (final o)) = Some v').
Proof.
  intros Hv Hkey. cbn zeta.
  assert (loose_neq (targetingKey newContext) (current_identity s) = true)
    as Hneq.
  { unfold loose_neq, current_identity. rewrite Hv, Hkey.
    by apply bool_decide_eq_true_2. }
  destruct (onContextChange_eq oldContext newContext s) as [-> ->].
  rewrite (updateVisitorFlags_identity_branch _ _ Hneq).
  cbn [events final this]. split.
  - eexists. split; [reflexivity|]. cbn. by rewrite Hkey.
  - by intros ->.
Qed.

(** X5. Setting the same identified context twice creates the visitor
    once: after an identity change to the key [key] has resolved, and
    provided the SDK gave the new visitor that key as its [visitorId], a
    second [onContextChange] with the same context creates no visitor,
    keeps the stored one and patches it with the same attribute bag. *)
Theorem repeated_context_patches
    (oldContext newContext : FlagshipContext) (s : Machine W)
    (key : string) :
  targetingKey newContext = Some key →
  loose_neq (targetingKey newContext) (current_identity s) = true →
  let first := onContextChange oldContext newContext s in
  let v := created (Some newContext) s in
  settled first = Resolved tt →
  Visitor_visitorId v (world (final first)) = key →
  let second := onContextChange newContext newContext (final first) in
  created_handles (events second) = []
  ∧ patch_calls (events second)
    = [(v, toPrimitiveRecord (userContext newContext))]
  ∧ _visitor (this (final second)) = Some v.
Proof.
  intros Hkey Hneq. cbn zeta.
  rewrite onContextChange_settled.
  destruct (onContextChange_eq oldContext newContext s) as [_ ->].
  rewrite (updateVisitorFlags_identity_branch _ _ Hneq).
  cbn [settled final].
  destruct (first_fetch (Some newContext) s) as [[]|e] eqn:Hfetch;
    [|discriminate].
  cbn [is_resolved]. intros _ Hid.
  set (s1 := {| this := _; world := _ |}) in *.
  assert (_visitor (this s1) = Some (created (Some newContext) s)) as Hv
    by done.
  assert (loose_neq (targetingKey newContext) (current_identity s1) = false)
    as Heq.
  { unfold loose_neq, current_identity. rewrite Hv, Hkey.
    apply bool_decide_eq_false_2. intros Hne. apply Hne.
    cbn [fmap option_fmap option_map]. f_equal. symmetry. exact Hid. }
  destruct (onContextChange_eq newContext newContext s1) as [-> ->].
  destruct (updateVisitorFlags_patch_branch newContext s1 _ Hv Heq)
    as [-> ->].
  rewrite created_handles_app, patch_calls_app.
  destruct (consent_toggle_cases newContext (created (Some newContext) s)
              (world s1)) as [[-> _]|(c & -> & _)];
    destruct (refetch_cases newContext (created (Some newContext) s)
                (world s1)) as [->|[ok ->]];
    done.
Qed.
End ReconcilerExtraProperties.

(** ** Further properties of the start-up and shutdown *)

Section LifecycleExtraProperties.
Context {W : Type} `{!Sdk W}.

(** [initializeSDK], spelled out. *)
Lemma initializeSDK_eq (s : Machine W) :
  initializeSDK s
  = if bool_decide (Flagship_getStatus (world s) = SDK_NOT_INITIALIZED)
    then call_start (_envId (this s)) (_apiKey (this s))
           (start_options (this s)) s
    else ret tt s.
Proof.
  unfold initializeSDK. async_step.
  destruct (bool_decide _); [|done]. by async_step.
Qed.

Lemma start_options_passthrough (p : ABTastyProvider) (key : string) :
  passthrough (start_options p) !! key
  = if bool_decide (key = "fetchNow" ∨ key = "logManager")
    then None
    else _config p ≫= (.!! key).
Proof.
  unfold start_options. cbn [passthrough].
  case_bool_decide as Hkey.
  - destruct Hkey as [-> | ->].
    + by rewrite lookup_delete_ne, lookup_delete_eq.
    + by rewrite lookup_delete_eq.
  - rewrite !lookup_delete_ne by (intros <-; apply Hkey; auto).
    by destruct (_config p).
Qed.

(** X6. [initialize] calls [Flagship.start] only when the SDK reports
    [SDK_NOT_INITIALIZED], and then once, before anything else, with the
    constructor's environment id and API key, [fetchNow] off whatever the
    configuration says, the adapter logger as log manager, and every other
    configuration field passed through unchanged. *)
Theorem initialize_starts_sdk_once
    (context : option FlagshipContext) (s : Machine W) :
  (Flagship_getStatus (world s) ≠ SDK_NOT_INITIALIZED →
   start_calls (events (initialize context s)) = [])
  ∧ (Flagship_getStatus (world s) = SDK_NOT_INITIALIZED →
     ∃ options rest,
       events (initialize context s)
       = CallStart (_envId (this s)) (_apiKey (this s)) options :: rest
       ∧ start_calls rest = []
       ∧ fetchNow options = false
       ∧ logManager options = _logger (this s)
       ∧ ∀ key,
           passthrough options !! key
           = if bool_decide (key = "fetchNow" ∨ key = "logManager")
             then None
             else _config (this s) ≫= (.!! key)).
Proof.
  rewrite initialize_eq, initializeSDK_eq.
  split; intros Hst.
  - rewrite bool_decide_eq_false_2 by done. cbn [ret settled events final].
    unfold after, create_and_fetch. cbn [app events].
    by destruct (first_fetch context s) as [[]|e].
  - rewrite bool_decide_eq_true_2 by done.
    unfold call_start. cbn [settled events final].
    destruct (Flagship_start _ _ _ _).1 as [[]|e].
    + exists (start_options (this s)). eexists. unfold after. cbn zeta.
      split_and!;
        [cbn [events app]; reflexivity| |done|done
        |apply start_options_passthrough].
      unfold create_and_fetch.
      by destruct (first_fetch context _) as [[]|e].
    + exists (start_options (this s)), [].
      split_and!; [done..|apply start_options_passthrough].
Qed.

(** X7. When the start of the SDK is rejected, [initialize] is rejected
    with the same reason before it creates a visitor: no [newVisitor], no
    fetch, no [Ready] event, and the stored visitor is as before. *)
Theorem initialize_rejected_start
    (context : option FlagshipContext) (s : Machine W) (reason : string) :
  Flagship_getStatus (world s) = SDK_NOT_INITIALIZED →
  (Flagship_start (_envId (this s)) (_apiKey (this s))
     (start_options (this s)) (world s)).1 = Rejected reason →
  settled (initialize context s) = Rejected reason
  ∧ created_handles (events (initialize context s)) = []
  ∧ fetched_handles (events (initialize context s)) = []
  ∧ emitted (events (initialize context s)) = []
  ∧ _visitor (this (final (initialize context s))) = _visitor (this s).
Proof.
  intros Hst Hstart.
  rewrite initialize_eq, initializeSDK_eq.
  rewrite bool_decide_eq_true_2 by done.
  unfold call_start. cbn [settled events final]. by rewrite Hstart.
Qed.

(** X8. No method changes what the constructor set: [initialize],
    [onContextChange] and [onClose] leave the environment id, the API key,
    the configuration and the logger as they were. [onClose] makes one
    [close] call and nothing else, and keeps the stored visitor. *)
Theorem settings_are_never_changed
    (context : option FlagshipContext)
    (oldContext newContext : FlagshipContext) (s : Machine W) :
  same_settings (this (final (initialize context s))) (this s)
  ∧ same_settings
      (this (final (onContextChange oldContext newContext s))) (this s)
  ∧ same_settings (this (final (onClose s))) (this s)
  ∧ events (onClose s) = [CallClose]
  ∧ _visitor (this (final (onClose s))) = _visitor (this s).
Proof.
  split_and!; [| |done..].
  - rewrite initialize_eq.
    destruct (initializeSDK_events s) as [_ Hthis].
    destruct (settled (initializeSDK s)) as [[]|e]; cbn zeta.
    + unfold after. cbn [final].
      destruct (first_fetch context _) as [[]|e]; cbn [final this];
        rewrite ?createVisitor_eq; cbn [final this]; by rewrite Hthis.
    + cbn [final]. by rewrite Hthis.
  - destruct (onContextChange_eq oldContext newContext s) as [_ ->].
    destruct (updateVisitorFlags_cases newContext s)
      as [[Hid _]|[(v & Hv & Hid & _)|(_ & _ & ->)]].
    + rewrite (updateVisitorFlags_identity_branch _ _ Hid).
      cbn [final this].
      by destruct (is_resolved (first_fetch (Some newContext) s)).
    + destruct (updateVisitorFlags_patch_branch newContext s v Hv Hid)
        as [_ ->]. done.
    + done.
Qed.

(** A rejected [initialize] stores no visitor. *)
Lemma initialize_rejected_keeps_visitor
    (context : option FlagshipContext) (s : Machine W) :
  is_resolved (settled (initialize context s)) = false →
  _visitor (this (final (initialize context s))) = _visitor (this s).
Proof.
  rewrite initialize_eq.
  destruct (initializeSDK_events s) as [_ Hthis].
  destruct (settled (initializeSDK s)) as [[]|e]; cbn zeta.
  - unfold after. cbn [settled final].
    destruct (first_fetch context _) as [[]|e]; [done|].
    rewrite createVisitor_eq. cbn [final this]. by rewrite Hthis.
  - cbn [final]. by rewrite Hthis.
Qed.

(** X9. A provider that has only been constructed stores no visitor, so
    every resolution returns the caller's default with [undefined]
    metadata, whatever the SDK holds; and this is still so after an
    [initialize] that was rejected. *)
Theorem constructed_provider_resolves_to_default
    (c : ProviderConstructor) (w : W) (context : option FlagshipContext)
    (flagKey : string) (defaultValue : JsValue) :
  resolveEvaluation {| this := constructor c; world := w |}
    flagKey defaultValue
  = {| value := defaultValue; flagMetadata := None |}
  ∧ (is_resolved
       (settled (initialize context
                   {| this := constructor c; world := w |})) = false →
     resolveEvaluation
       (final (initialize context {| this := constructor c; world := w |}))
       flagKey defaultValue
     = {| value := defaultValue; flagMetadata := None |}).
Proof.
  split; [reflexivity|]. intros Hrejected.
  unfold resolveEvaluation.
  by rewrite (initialize_rejected_keeps_visitor _ _ Hrejected).
Qed.

(** X10. The status is [NOT_READY] exactly while the SDK is not
    initialised or initialising; in every other SDK state, a panic
    included, it is [READY]: the getter never reports an error. *)
Theorem status_ready_unless_starting (s : Machine W) :
  (status s = NOT_READY
   ↔ Flagship_getStatus (world s) = SDK_NOT_INITIALIZED
     ∨ Flagship_getStatus (world s) = SDK_INITIALIZING)
  ∧ (status s = READY
     ↔ Flagship_getStatus (world s) = SDK_PANIC
       ∨ Flagship_getStatus (world s) = SDK_INITIALIZED)
  ∧ (status s = NOT_READY ∨ status s = READY).
Proof.
  unfold status.
  destruct (Flagship_getStatus (world s));
    (split_and!;
       [split; intuition congruence|split; intuition congruence|auto]).
Qed.
End LifecycleExtraProperties.

(** ** Further properties of the resolution layer *)

Section ResolutionExtraProperties.
Context {W : Type} `{!Sdk W}.

Lemma js_or_cases (a : option JsValue) (b : JsValue) :
  (∃ v, a = Some v ∧ truthy v = true ∧ js_or a b = v) ∨ js_or a b = b.
Proof.
  destruct a as [v|]; [|by right]. cbn.
  destruct (truthy v) eqn:Hv; [left; by exists v|by right].
Qed.

(** X11. When the flag exists and its [getValue] returns a truthy value,
    resolution returns that value, not the default. *)
Theorem truthy_value_is_returned (s : Machine W) (flagKey : string)
    (defaultValue : JsValue) (v : VisitorRef) (flag : Flag)
    (evaluated : JsValue) :
  _visitor (this s) = Some v →
  Visitor_getFlag v flagKey (world s) = Some flag →
  getValue flag defaultValue = Some evaluated →
  truthy evaluated = true →
  value (resolveEvaluation s flagKey defaultValue) = evaluated.
Proof.
  intros Hv Hflag Hvalue Htruthy.
  rewrite (resolveEvaluation_found s flagKey _ v flag Hv Hflag).
  cbn [value]. rewrite Hvalue. cbn. by rewrite Htruthy.
Qed.

(** X12. Whatever the state, the key and the default: the value resolution
    returns is the default or a truthy value, so a falsy value is only
    ever returned when it is the caller's own default; and metadata is
    returned exactly when the stored visitor has the flag. *)
Theorem resolved_value_is_truthy_or_default (s : Machine W)
    (flagKey : string) (defaultValue : JsValue) :
  (value (resolveEvaluation s flagKey defaultValue) = defaultValue
   ∨ truthy (value (resolveEvaluation s flagKey defaultValue)) = true)
  ∧ (is_Some (flagMetadata (resolveEvaluation s flagKey defaultValue))
     ↔ ∃ v flag, _visitor (this s) = Some v
                 ∧ Visitor_getFlag v flagKey (world s) = Some flag).
Proof.
  destruct (_visitor (this s)) as [v|] eqn:Hv.
  - destruct (Visitor_getFlag v flagKey (world s)) as [flag|] eqn:Hflag.
    + rewrite (resolveEvaluation_found s flagKey _ v flag Hv Hflag).
      cbn [value flagMetadata]. split.
      * destruct (js_or_cases (getValue flag defaultValue) defaultValue)
          as [(x & _ & Hx & Heq)|Heq]; rewrite Heq; auto.
      * split; [intros _; by exists v, flag|by eexists].
    + unfold resolveEvaluation. rewrite Hv. cbn. rewrite Hflag. cbn.
      split; [by left|]. split; [by intros [? ?]|].
      intros (v' & flag & Hv' & Hflag'). congruence.
  - unfold resolveEvaluation. rewrite Hv. cbn.
    split; [by left|]. split; [by intros [? ?]|].
    by intros (v' & flag & ? & _).
Qed.

(** X13. Metadata that already has a slug (not [null]) is returned
    exactly as the SDK gave it. *)
Theorem metadata_with_slug_is_unchanged (s : Machine W) (flagKey : string)
    (defaultValue : JsValue) (v : VisitorRef) (flag : Flag)
    (slug : JsValue) :
  _visitor (this s) = Some v →
  Visitor_getFlag v flagKey (world s) = Some flag →
  metadata flag !! "slug" = Some slug →
  slug ≠ JNull →
  flagMetadata (resolveEvaluation s flagKey defaultValue)
  = Some (metadata flag).
Proof.
  intros Hv Hflag Hslug Hnn.
  rewrite (resolveEvaluation_found s flagKey _ v flag Hv Hflag).
  cbn [flagMetadata]. f_equal. apply insert_id.
  rewrite Hslug. by destruct slug.
Qed.
End ResolutionExtraProperties.

(** ** Further properties of the context translation *)

(** X14. Translation only removes entries: the output is contained in the
    input; and translating twice is translating once. *)
Theorem toPrimitiveRecord_idempotent (input : gmap string JsValue) :
  toPrimitiveRecord input ⊆ input
  ∧ toPrimitiveRecord (toPrimitiveRecord input) = toPrimitiveRecord input.
Proof.
  split.
  - apply map_subseteq_spec. intros key v Hout.
    by apply toPrimitiveRecord_lookup in Hout as [? _].
  - apply map_eq. intros key. apply option_eq. intros v.
    rewrite !toPrimitiveRecord_lookup. tauto.
Qed.


(** ** Properties of the log adapter *)

Module LoggingProperties.
Import Logging.

Lemma string_length_app (s1 s2 : string) :
  String.length (s1 +:+ s2) = String.length s1 + String.length s2.
Proof. induction s1 as [|c s1 IH]; simpl; [done|]. by f_equal. Qed.

Lemma repeat_zero_length (n : nat) :
  String.length (repeat_string n "0") = n.
Proof. induction n as [|n IH]; simpl; [done|]. by f_equal. Qed.

Lemma substring_all (s : string) :
  String.substring 0 (String.length s) s = s.
Proof. induction s as [|c s IH]; simpl; [done|]. by f_equal. Qed.

Lemma filler_zero (n : nat) : filler n "0" = repeat_string n "0".
Proof.
  unfold filler.
  rewrite <-(repeat_zero_length n) at 1. apply substring_all.
Qed.

Lemma padStart_zero (targetLength : nat) (s : string) :
  padStart targetLength "0" s
  = repeat_string (targetLength - String.length s) "0" +:+ s.
Proof.
  unfold padStart. cbn [string_truthy negb]. rewrite orb_false_r.
  destruct (targetLength <=? String.length s) eqn:Hle.
  - apply Nat.leb_le in Hle.
    by replace (targetLength - String.length s) with 0 by lia.
  - by rewrite filler_zero.
Qed.

(** Checking a property of the numbers of a range one by one. *)
Lemma checked_on_range (P : nat → bool) (lo len n : nat) :
  forallb P (seq lo len) = true → lo ≤ n < lo + len → P n = true.
Proof.
  intros Hall Hn. rewrite forallb_forall in Hall. apply Hall.
  apply in_seq. lia.
Qed.

Lemma toString_width_2 (n : nat) :
  n < 100 → 1 ≤ String.length (toString n) ≤ 2.
Proof.
  intros Hn.
  pose proof (checked_on_range
    (fun n => (1 <=? String.length (toString n))
              && (String.length (toString n) <=? 2)) 0 100 n
    ltac:(vm_compute; reflexivity) ltac:(lia)) as Hc.
  cbn beta in Hc. apply andb_true_iff in Hc as [H1 H2].
  apply Nat.leb_le in H1, H2. lia.
Qed.

Lemma toString_width_3 (n : nat) :
  n < 1000 → 1 ≤ String.length (toString n) ≤ 3.
Proof.
  intros Hn.
  pose proof (checked_on_range
    (fun n => (1 <=? String.length (toString n))
              && (String.length (toString n) <=? 3)) 0 1000 n
    ltac:(vm_compute; reflexivity) ltac:(lia)) as Hc.
  cbn beta in Hc. apply andb_true_iff in Hc as [H1 H2].
  apply Nat.leb_le in H1, H2. lia.
Qed.

Lemma toString_width_4 (n : nat) :
  1000 ≤ n < 10 * 1000 → String.length (toString n) = 4.
Proof.
  intros Hn.
  pose proof (checked_on_range
    (fun n => String.length (toString n) =? 4) 1000 (9 * 1000) n
    ltac:(vm_compute; reflexivity) ltac:(lia)) as Hc.
  by apply Nat.eqb_eq in Hc.
Qed.

(** X16. The padding of the date fields only ever adds zeros in front of
    the digits and never cuts them: a field is its decimal digits behind
    as many zeros as are missing to the width, so it is as wide as the
    width or, for a larger number, as its digits. *)
Theorem padding_keeps_the_digits (value : nat) :
  formatTwoDigits value
  = repeat_string (2 - String.length (toString value)) "0"
    +:+ toString value
  ∧ formatMilliseconds value
    = repeat_string (3 - String.length (toString value)) "0"
      +:+ toString value
  ∧ String.length (formatTwoDigits value)
    = Nat.max 2 (String.length (toString value))
  ∧ String.length (formatMilliseconds value)
    = Nat.max 3 (String.length (toString value)).
Proof.
  unfold formatTwoDigits, formatMilliseconds.
  rewrite !padStart_zero, !string_length_app, !repeat_zero_length.
  split_and!; [done|done|lia|lia].
Qed.

Lemma formatTwoDigits_width (n : nat) :
  n < 100 → String.length (formatTwoDigits n) = 2.
Proof.
  intros Hn. pose proof (toString_width_2 n Hn).
  unfold formatTwoDigits.
  rewrite padStart_zero, string_length_app, repeat_zero_length. lia.
Qed.
Lemma formatMilliseconds_width (n : nat) :
  n < 1000 → String.length (formatMilliseconds n) = 3.
Proof.
  intros Hn. pose proof (toString_width_3 n Hn).
  unfold formatMilliseconds.
  rewrite padStart_zero, string_length_app, repeat_zero_length. lia.
Qed.

Lemma width_2_inv (s : string) :
  String.length s = 2 → ∃ a b, s = String a (String b "").
Proof. destruct s as [|a [|b [|c s]]]; try done. by exists a, b. Qed.

Lemma width_3_inv (s : string) :
  String.length s = 3 → ∃ a b c, s = String a (String b (String c "")).
Proof. destruct s as [|a [|b [|c [|d s]]]]; try done. by exists a, b, c. Qed.

Lemma width_4_inv (s : string) :
  String.length s = 4 →
  ∃ a b c d, s = String a (String b (String c (String d ""))).
Proof.
  destruct s as [|a [|b [|c [|d [|e s]]]]]; try done. by exists a, b, c, d.
Qed.

(** X17. For a date with a four-digit year the timestamp always has the
    same layout: 23 characters, with the separators of
    [YYYY-MM-DD hh:mm:ss.mmm] at fixed positions. *)
Theorem timestamp_has_fixed_layout (now : DateParts) :
  in_range now →
  String.length (timestamp now) = 23
  ∧ String.substring 4 1 (timestamp now) = "-"
  ∧ String.substring 7 1 (timestamp now) = "-"
  ∧ String.substring 10 1 (timestamp now) = " "
  ∧ String.substring 13 1 (timestamp now) = ":"
  ∧ String.substring 16 1 (timestamp now) = ":"
  ∧ String.substring 19 1 (timestamp now) = ".".
Proof.
  intros (Hy & Hmo & Hd & Hh & Hmi & Hs & Hms). unfold timestamp.
  destruct (width_4_inv _ (toString_width_4 _ Hy)) as (y1 & y2 & y3 & y4 & ->).
  destruct (width_2_inv _ (formatTwoDigits_width (getMonth now + 1)
                             ltac:(lia))) as (m1 & m2 & ->).
  destruct (width_2_inv _ (formatTwoDigits_width (getDate now) ltac:(lia)))
    as (d1 & d2 & ->).
  destruct (width_2_inv _ (formatTwoDigits_width (getHours now) ltac:(lia)))
    as (h1 & h2 & ->).
  destruct (width_2_inv _ (formatTwoDigits_width (getMinutes now)
                             ltac:(lia))) as (i1 & i2 & ->).
  destruct (width_2_inv _ (formatTwoDigits_width (getSeconds now)
                             ltac:(lia))) as (s1 & s2 & ->).
  destruct (width_3_inv _ (formatMilliseconds_width (getMilliseconds now)
                             Hms)) as (l1 & l2 & l3 & ->).
  by split_and!.
Qed.

Lemma formatLogOutput_eq (now : DateParts) (level : LogLevel)
    (message tag : string) :
  formatLogOutput now level message tag
  = colorCodes level +:+ "[" +:+ timestamp now +:+ "] [Flagship SDK] ["
    +:+ level_name level +:+ "] [" +:+ tag +:+ "] " +:+ message
    +:+ resetColor.
Proof. by destruct level. Qed.

(** X18. For each of the ten levels the fallback [|| ''] on the colour
    code and the padding [padEnd(2)] of the level name change nothing: the
    line is the level's colour code, the bracketed timestamp, the
    [Flagship SDK] marker, the bracketed level name as it is, the
    bracketed tag, the message, and the reset code. *)
Theorem log_line_layout (now : DateParts) (level : LogLevel)
    (message tag : string) :
  formatLogOutput now level message tag
  = colorCodes level +:+ "[" +:+ timestamp now +:+ "] [Flagship SDK] ["
    +:+ level_name level +:+ "] [" +:+ tag +:+ "] " +:+ message
    +:+ resetColor.
Proof. apply formatLogOutput_eq. Qed.

(** X19. Every method of the adapter makes exactly one call, on the
    logger it wraps, with the line formatted at the method's level. The
    channel follows the method: [error] for emergency, alert, critical and
    error, [warn] for warning and notice, [info] for info, and [debug] for
    debug and for every [log] call, whatever its level. *)
Theorem one_call_per_log_method (a : AdapterLogger) (now : DateParts)
    (m : LogManagerCall) (message tag : string) :
  ∃ c,
    invoke a now m message tag
    = [{| target := wrapped_logger a; channel := c;
          text := formatLogOutput now (level_of m) message tag |}]
    ∧ (c = on_error
       ↔ m = Emergency ∨ m = Alert ∨ m = Critical ∨ m = Error)
    ∧ (c = on_warn ↔ m = Warning ∨ m = Notice)
    ∧ (c = on_info ↔ m = Info)
    ∧ (c = on_debug ↔ m = Debug ∨ ∃ level, m = Log level).
Proof.
  destruct m; eexists; (split; [reflexivity|]);
    split_and!; split; try done; try (intros [|[|[|]]]; done);
    try (intros [|]; done); try (intros [|[]]; done); eauto.
Qed.

Lemma level_name_inj (l1 l2 : LogLevel) (rest1 rest2 : string) :
  level_name l1 +:+ "] [" +:+ rest1 = level_name l2 +:+ "] [" +:+ rest2 →
  l1 = l2.
Proof. destruct l1, l2; cbn; intros Heq; by simplify_eq. Qed.

Lemma formatLogOutput_level_inj (now : DateParts) (l1 l2 : LogLevel)
    (message1 tag1 message2 tag2 : string) :
  formatLogOutput now l1 message1 tag1
  = formatLogOutput now l2 message2 tag2 →
  l1 = l2.
Proof.
  rewrite !formatLogOutput_eq. intros Heq.
  assert (colorCodes l1 = colorCodes l2) as Hcolor.
  { destruct l1, l2; cbn in Heq |- *; by simplify_eq. }
  rewrite Hcolor in Heq.
  do 4 apply (inj (String.append _)) in Heq.
  by apply (level_name_inj l1 l2
              (tag1 +:+ "] " +:+ message1 +:+ resetColor)
              (tag2 +:+ "] " +:+ message2 +:+ resetColor)).
Qed.

(** X20. The level can be read off the line: at the same time, lines of
    two different levels are different, whatever their messages and tags,
    also where the two levels share a colour. *)
Theorem different_levels_give_different_lines (now : DateParts)
    (l1 l2 : LogLevel) (message1 tag1 message2 tag2 : string) :
  l1 ≠ l2 →
  formatLogOutput now l1 message1 tag1
  ≠ formatLogOutput now l2 message2 tag2.
Proof.
  intros Hne Heq. apply Hne.
  by apply (formatLogOutput_level_inj now l1 l2 message1 tag1 message2 tag2).
Qed.
End LoggingProperties.

(** ** The further properties at work on the simulated SDK *)

Module ExtraScenarios.
Import SimSdk Logging LoggingProperties.

(** The line of the test suite, for the date of the test suite. *)
Example info_line_of_test_date :
  formatLogOutput test_date INFO "Message" "Tag"
  = esc +:+ "[32;1m[2023-01-01 01:02:03.004] [Flagship SDK] [INFO] [Tag] "
    +:+ "Message" +:+ esc +:+ "[0m".
Proof. vm_compute. reflexivity. Qed.

Lemma refetch_witness :
  (_visitor (this ready_123) = Some 0
   ∧ targetingKey user_123_no_consent
     = Some (Visitor_visitorId 0 (world ready_123)))
  ∧ fetched_handles
      (events (onContextChange user_123 user_123_no_consent ready_123))
    = []
  ∧ settled (onContextChange user_123 user_123_no_consent ready_123)
    = Resolved tt.
Proof.
  split; [split; vm_compute; reflexivity|].
  destruct (proj2 (@refetch_only_when_required World sim_sdk
                     user_123 user_123_no_consent ready_123 0
                     ltac:(vm_compute; reflexivity)
                     ltac:(vm_compute; reflexivity))
              ltac:(vm_compute; discriminate)) as (Hfetch & Hsettled & _).
  split; [exact Hfetch|exact Hsettled].
Defined.

Lemma missing_key_witness :
  (_visitor (this ready_123) = Some 0 ∧ targetingKey empty_context = None)
  ∧ _visitor
      (this (final (onContextChange user_123 empty_context ready_123)))
    = Some 1.
Proof.
  split; [split; vm_compute; reflexivity|].
  apply (proj2 (@missing_key_replaces_visitor World sim_sdk
                  user_123 empty_context ready_123 0
                  ltac:(vm_compute; reflexivity)
                  ltac:(vm_compute; reflexivity))).
  vm_compute. reflexivity.
Defined.

Lemma repeated_context_witness :
  (targetingKey user_456 = Some "user-456"
   ∧ loose_neq (targetingKey user_456) (current_identity ready_123) = true
   ∧ settled (onContextChange user_123 user_456 ready_123) = Resolved tt
   ∧ Visitor_visitorId 1
       (world (final (onContextChange user_123 user_456 ready_123)))
     = "user-456")
  ∧ created_handles
      (events (onContextChange user_456 user_456
                 (final (onContextChange user_123 user_456 ready_123))))
    = []
  ∧ _visitor
      (this (final
         (onContextChange user_456 user_456
            (final (onContextChange user_123 user_456 ready_123)))))
    = Some 1.
Proof.
  split; [split_and!; vm_compute; reflexivity|].
  destruct (@repeated_context_patches World sim_sdk
              user_123 user_456 ready_123 "user-456"
              ltac:(vm_compute; reflexivity)
              ltac:(vm_compute; reflexivity)
              ltac:(vm_compute; reflexivity)
              ltac:(vm_compute; reflexivity)) as (Hcreated & _ & Hv).
  split; [exact Hcreated|exact Hv].
Defined.

Lemma start_once_witness :
  Flagship_getStatus (world (fresh true)) = SDK_NOT_INITIALIZED
  ∧ ∃ options rest,
      events (initialize (Some user_123) (fresh true))
      = CallStart "env-test-id" "api-test-key" options :: rest
      ∧ fetchNow options = false
      ∧ passthrough options !! "fetchNow" = None.
Proof.
  split; [reflexivity|].
  destruct (proj2 (@initialize_starts_sdk_once World sim_sdk
                     (Some user_123) (fresh true))
              ltac:(vm_compute; reflexivity))
    as (options & rest & Hevents & _ & Hfetch & _ & Hpass).
  exists options, rest. split_and!; [exact Hevents|exact Hfetch|].
  rewrite (Hpass "fetchNow"). vm_compute. reflexivity.
Defined.

Lemma rejected_start_witness :
  (Flagship_getStatus (world (fresh false)) = SDK_NOT_INITIALIZED
   ∧ (Flagship_start (_envId (this (fresh false)))
        (_apiKey (this (fresh false)))
        (start_options (this (fresh false))) (world (fresh false))).1
     = Rejected "start failed")
  ∧ settled (initialize (Some user_123) (fresh false))
    = Rejected "start failed"
  ∧ created_handles (events (initialize (Some user_123) (fresh false)))
    = [].
Proof.
  split; [split; vm_compute; reflexivity|].
  destruct (@initialize_rejected_start World sim_sdk
              (Some user_123) (fresh false) "start failed"
              ltac:(vm_compute; reflexivity)
              ltac:(vm_compute; reflexivity)) as (Hsettled & Hcreated & _).
  split; [exact Hsettled|exact Hcreated].
Defined.

Lemma truthy_value_witness :
  (_visitor (this ready_123) = Some 0
   ∧ Visitor_getFlag 0 "my-flag" (world ready_123)
     = Some (constant_flag (Some (JBool true))
               {[ "campaignId" := JString "123";
                  "variationId" := JString "abc" ]}))
  ∧ value (resolveBooleanEvaluation ready_123 "my-flag" false)
    = JBool true.
Proof.
  split; [split; vm_compute; reflexivity|].
  apply (@truthy_value_is_returned World sim_sdk ready_123 "my-flag"
           (JBool false) 0
           (constant_flag (Some (JBool true))
              {[ "campaignId" := JString "123";
                 "variationId" := JString "abc" ]})
           (JBool true)
           ltac:(vm_compute; reflexivity) ltac:(vm_compute; reflexivity)
           ltac:(vm_compute; reflexivity) ltac:(vm_compute; reflexivity)).
Defined.

Lemma metadata_unchanged_witness :
  (_visitor (this ready_123) = Some 0
   ∧ Visitor_getFlag 0 "empty-text" (world ready_123)
     = Some (constant_flag (Some (JString ""))
               {[ "campaignId" := JString "123";
                  "slug" := JString "text" ]}))
  ∧ flagMetadata (resolveStringEvaluation ready_123 "empty-text" "d")
    = Some {[ "campaignId" := JString "123"; "slug" := JString "text" ]}.
Proof.
  split; [split; vm_compute; reflexivity|].
  apply (@metadata_with_slug_is_unchanged World sim_sdk ready_123
           "empty-text" (JString "d") 0
           (constant_flag (Some (JString ""))
              {[ "campaignId" := JString "123";
                 "slug" := JString "text" ]})
           (JString "text")
           ltac:(vm_compute; reflexivity) ltac:(vm_compute; reflexivity)
           ltac:(vm_compute; reflexivity) ltac:(discriminate)).
Defined.

Lemma timestamp_witness :
  in_range test_date ∧ String.length (timestamp test_date) = 23.
Proof.
  assert (in_range test_date) as Hrange.
  { unfold in_range, test_date. cbn. lia. }
  split; [exact Hrange|].
  exact (proj1 (timestamp_has_fixed_layout test_date Hrange)).
Defined.

Lemma level_witness :
  CRITICAL ≠ ERROR
  ∧ formatLogOutput test_date CRITICAL "Info" "Tag"
    ≠ formatLogOutput test_date ERROR "Info" "Tag".
Proof.
  assert (CRITICAL ≠ ERROR) as Hne by discriminate.
  split; [exact Hne|].
  exact (different_levels_give_different_lines test_date CRITICAL ERROR
           "Info" "Tag" "Info" "Tag" Hne).
Defined.
End ExtraScenarios.
